(** * CRL re-signing endpoint of the PKI secrets engine

    A shallow embedding of [builtin/logical/pki/path_resign_crls.go]:
    the request handler [pathUpdateResignCrlsHandler] and the helpers it
    is built from ([getCrlFormat], [decodePemCrls], [decodePemCrl],
    [verifyCrlsAreFromIssuersKey], [getAllRevokedCerts], [getCaBundle],
    [encodeResponse]), followed by the properties the design document
    states about them. *)

From Stdlib Require Import ZArith NArith List Lia.
From Stdlib.Strings Require Import String Ascii Byte.
From stdpp Require Import base tactics option list strings gmap fin_maps pretty.

Local Open Scope string_scope.
Local Open Scope Z_scope.
Local Open Scope list_scope.
Local Open Scope stdpp_scope.

(** ** Go values *)

(** A function returning [(T, error)] either yields a value or an error
    whose [Error()] text is the carried string. *)
Inductive Result (A : Type) : Type :=
| Ok (a : A)
| Err (e : string).
Arguments Ok {A} a.
Arguments Err {A} e.

(** A call either comes back with its results or aborts with a run-time
    panic (here: a nil-pointer dereference). *)
Inductive Outcome (A : Type) : Type :=
| Done (r : Result A)
| Panic (reason : string).
Arguments Done {A} r.
Arguments Panic {A} reason.

(** [time.Time]: an instant on the time line together with a location that
    only affects presentation. *)
Record Time : Type := mkTime {
  unixNano : Z;
  location : string
}.

(** [Time.Equal] and [Time.After] compare instants and ignore locations. *)
Definition Time_Equal (t u : Time) : bool := (unixNano t =? unixNano u)%Z.
Definition Time_After (t u : Time) : bool := (unixNano u <? unixNano t)%Z.
Definition Time_Add (t : Time) (d : Z) : Time :=
  {| unixNano := unixNano t + d; location := location t |}.

(** [pkix.Extension] *)
Record Extension : Type := mkExtension {
  Id : list Z;
  Critical : bool;
  Value : list Z
}.

(** [pkix.RevokedCertificate] *)
Record RevokedCertificate : Type := mkRevoked {
  SerialNumber : Z;
  RevocationTime : Time;
  Extensions : list Extension
}.

(** [x509.RevocationList], used both for parsed input lists and for the
    template handed to the signer. *)
Record RevocationList : Type := mkRevocationList {
  RawTBSRevocationList : list Z;
  Signature : list Z;
  SignatureAlgorithm : Z;
  RevokedCertificates : list RevokedCertificate;
  Number : Z;
  ThisUpdate : Time;
  NextUpdate : Time;
  ExtraExtensions : list Extension
}.

(** [template.ExtraExtensions = exts] *)
Definition withExtraExtensions (template : RevocationList) (exts : list Extension)
  : RevocationList :=
  {| RawTBSRevocationList := RawTBSRevocationList template;
     Signature := Signature template;
     SignatureAlgorithm := SignatureAlgorithm template;
     RevokedCertificates := RevokedCertificates template;
     Number := Number template;
     ThisUpdate := ThisUpdate template;
     NextUpdate := NextUpdate template;
     ExtraExtensions := exts |}.

(** [curCert.Extensions = []pkix.Extension{}] on the loop's copy. *)
Definition clearExtensions (c : RevokedCertificate) : RevokedCertificate :=
  {| SerialNumber := SerialNumber c;
     RevocationTime := RevocationTime c;
     Extensions := [] |}.

(** Ranging over a Go map visits the entries in an order the language
    leaves unspecified: any rearrangement of the entries. *)
Record RangeOrder : Type := mkRangeOrder {
  visit :> list (string * RevokedCertificate) -> list (string * RevokedCertificate);
  visit_perm : forall l, visit l ≡ₚ l
}.

Definition insertionOrder : RangeOrder :=
  {| visit := fun l => l; visit_perm := fun l => reflexivity l |}.

Definition reversedOrder : RangeOrder :=
  {| visit := reverse; visit_perm := reverse_Permutation |}.

(** ** Revocation reconciler *)

Section Reconciler.

(** [serialFromBigInt] lives in another file of the package; the
    reconciler only uses it as the key of the [uniqueCert] map. *)
Variable serialFromBigInt : Z -> string.

Definition duplicateWarning (serial : string) : string :=
  "Duplicate serial " +:+ serial +:+
  " with different revocation times detected, using oldest revocation time".

(** Loop state: the [uniqueCert] map and the [warnings] slice. *)
Definition MergeState : Type := gmap string RevokedCertificate * list string.

(** One pass through the body of the inner loop. *)
Definition mergeCert (st : MergeState) (cert : RevokedCertificate) : MergeState :=
  let '(uniqueCert, warnings) := st in
  let serial := serialFromBigInt (SerialNumber cert) in
  let curCert := clearExtensions cert in
  match uniqueCert !! serial with
  | None => (<[serial := curCert]> uniqueCert, warnings)
  | Some existingCert =>
      if Time_Equal (RevocationTime existingCert) (RevocationTime curCert)
      then (uniqueCert, warnings)
      else
        let warnings := warnings ++ [duplicateWarning serial] in
        if Time_After (RevocationTime existingCert) (RevocationTime curCert)
        then (<[serial := curCert]> uniqueCert, warnings)
        else (uniqueCert, warnings)
  end.

(** The inner loop over one list, and the outer loop over all lists. *)
Definition mergeCrl (st : MergeState) (crl : RevocationList) : MergeState :=
  fold_left mergeCert (RevokedCertificates crl) st.

Definition mergeCrls (st : MergeState) (crls : list RevocationList) : MergeState :=
  fold_left mergeCrl crls st.

Definition getAllRevokedCerts (order : RangeOrder) (crls : list RevocationList)
  : list RevokedCertificate * list string * option string :=
  let '(uniqueCert, warnings) := mergeCrls (∅, []) crls in
  let revokedCerts := map snd (order (map_to_list uniqueCert)) in
  (revokedCerts, warnings, None).

(** The map key of an entry, and the entries of all lists in the order
    the loops visit them. *)
Definition serialOf (cert : RevokedCertificate) : string :=
  serialFromBigInt (SerialNumber cert).

Definition entriesOf (crls : list RevocationList) : list RevokedCertificate :=
  concat (map RevokedCertificates crls).

Definition instantOf (cert : RevokedCertificate) : Z :=
  unixNano (RevocationTime cert).

(** [crl] lists the serial of [entry] once, as [entry]. *)
Definition RevokesOnce (crl : RevocationList) (entry : RevokedCertificate) : Prop :=
  exists before after,
    RevokedCertificates crl = before ++ entry :: after /\
    Forall (fun other => serialOf other <> serialOf entry) (before ++ after).

(** No entry of [earlier] that bears a serial of [crl] is revoked
    before the entry of [crl] with that serial. *)
Definition NoneEarlier (crl : RevocationList) (earlier : list RevocationList) : Prop :=
  Forall (fun entry =>
    Forall (fun seen => serialOf seen = serialOf entry ->
                        instantOf entry <= instantOf seen)
           (entriesOf earlier))
    (RevokedCertificates crl).

(** What the loops maintain: every stored entry sits under its own
    serial and is an input entry stripped of its extensions, and every
    input entry seen so far is matched by a stored entry that is not
    later. *)
Record Sound (seen : list RevokedCertificate) (st : MergeState) : Prop := {
  stored_from_input : forall k c, st.1 !! k = Some c ->
    serialOf c = k /\ exists e, e ∈ seen /\ c = clearExtensions e;
  earliest_kept : forall e, e ∈ seen ->
    exists c, st.1 !! serialOf e = Some c /\ instantOf c <= instantOf e
}.

End Reconciler.

(** ** Text and byte helpers of the Go standard library *)

(** [strings.ToLower] on the bytes of the ASCII range.  Bytes outside that
    range are kept: no rune outside ASCII lowers to a letter of "pem" or
    "der", so the comparison made by [getCrlFormat] is unaffected. *)
Definition lowerByte (c : ascii) : ascii :=
  let n := N_of_ascii c in
  if ((65 <=? n) && (n <=? 90))%N then ascii_of_N (n + 32) else c.

Fixpoint strings_ToLower (s : string) : string :=
  match s with
  | EmptyString => EmptyString
  | String c rest => String (lowerByte c) (strings_ToLower rest)
  end.

(** [base64.StdEncoding]: the alphabet of RFC 4648 with [=] padding. *)
Definition encodeStd : string :=
  "ABCDEFGHIJKLMNOPQRSTUVWXYZabcdefghijklmnopqrstuvwxyz0123456789+/".

Definition stdChar (i : N) : ascii :=
  default "A"%char (String.get (N.to_nat i) encodeStd).

Definition padChar : ascii := "="%char.

(** The 24-bit group [val] of [Encoding.Encode] and its four sextets. *)
Definition group24 (a b c : byte) : N :=
  N.lor (N.lor (N.shiftl (Byte.to_N a) 16) (N.shiftl (Byte.to_N b) 8)) (Byte.to_N c).

Definition sextet (val : N) (shift : N) : N := N.land (N.shiftr val shift) 63.

Fixpoint base64_EncodeToString (src : list byte) : string :=
  match src with
  | [] => EmptyString
  | [a] =>
      let val := N.shiftl (Byte.to_N a) 16 in
      String (stdChar (sextet val 18)) (String (stdChar (sextet val 12))
        (String padChar (String padChar EmptyString)))
  | [a; b] =>
      let val := N.lor (N.shiftl (Byte.to_N a) 16) (N.shiftl (Byte.to_N b) 8) in
      String (stdChar (sextet val 18)) (String (stdChar (sextet val 12))
        (String (stdChar (sextet val 6)) (String padChar EmptyString)))
  | a :: b :: c :: rest =>
      let val := group24 a b c in
      String (stdChar (sextet val 18)) (String (stdChar (sextet val 12))
        (String (stdChar (sextet val 6)) (String (stdChar (sextet val 0))
          (base64_EncodeToString rest))))
  end.

(** Reading the alphabet backwards: the position of a character in
    [encodeStd]. *)
Fixpoint indexIn (c : ascii) (alphabet : string) (i : N) : option N :=
  match alphabet with
  | EmptyString => None
  | String d rest => if Ascii.eqb c d then Some i else indexIn c rest (i + 1)
  end.

Definition stdIndex (c : ascii) : option N := indexIn c encodeStd 0.

Definition byteOf (n : N) : byte := default x00 (Byte.of_N (N.land n 255)).

(** Strict decoding of padded base64 text, four characters at a time. *)
Fixpoint base64_DecodeString (s : string) : option (list byte) :=
  match s with
  | EmptyString => Some []
  | String c1 (String c2 (String c3 (String c4 rest))) =>
      match stdIndex c1, stdIndex c2 with
      | Some i1, Some i2 =>
          if Ascii.eqb c3 padChar then
            if Ascii.eqb c4 padChar && String.eqb rest EmptyString
               && (N.land i2 15 =? 0)%N
            then Some [byteOf (N.shiftr (N.lor (N.shiftl i1 6) i2) 4)]
            else None
          else
            match stdIndex c3 with
            | None => None
            | Some i3 =>
                if Ascii.eqb c4 padChar then
                  if String.eqb rest EmptyString && (N.land i3 3 =? 0)%N then
                    let val := N.lor (N.lor (N.shiftl i1 12) (N.shiftl i2 6)) i3 in
                    Some [byteOf (N.shiftr val 10); byteOf (N.shiftr val 2)]
                  else None
                else
                  match stdIndex c4, base64_DecodeString rest with
                  | Some i4, Some tail =>
                      let val := N.lor (N.lor (N.lor (N.shiftl i1 18) (N.shiftl i2 12))
                                              (N.shiftl i3 6)) i4 in
                      Some (byteOf (N.shiftr val 16) :: byteOf (N.shiftr val 8)
                              :: byteOf val :: tail)
                  | _, _ => None
                  end
            end
      | _, _ => None
      end
  | _ => None
  end.

(** [pem.Block]; the [Headers] map is never set nor read by this endpoint
    and is left out. *)
Record Block : Type := mkBlock {
  Type_ : string;
  Bytes : list byte
}.

Definition pemLineLength : nat := 64.
Definition lineFeed : ascii := ascii_of_N 10.
Definition nl : string := String lineFeed EmptyString.

(** The [lineBreaker] writer of [encoding/pem]: a line feed after every
    [pemLineLength] characters, and one after a last, shorter line when
    the writer is closed.  [used] is the fill of the current line. *)
Fixpoint lineBreaker (used : nat) (text : string) : string :=
  match text with
  | EmptyString => match used with O => EmptyString | S _ => nl end
  | String c rest =>
      if (S used =? pemLineLength)%nat
      then String c (nl +:+ lineBreaker 0 rest)
      else String c (lineBreaker (S used) rest)
  end.

Definition pemStart (type : string) : string := "-----BEGIN " +:+ type +:+ "-----" +:+ nl.
Definition pemEnd (type : string) : string := "-----END " +:+ type +:+ "-----" +:+ nl.

Definition pem_EncodeToMemory (b : Block) : list byte :=
  list_byte_of_string
    (pemStart (Type_ b) +:+ lineBreaker 0 (base64_EncodeToString (Bytes b)) +:+ pemEnd (Type_ b)).

(** Dropping the line feeds of a PEM body. *)
Fixpoint dropLineFeeds (s : string) : string :=
  match s with
  | EmptyString => EmptyString
  | String c rest =>
      if Ascii.eqb c lineFeed then dropLineFeeds rest
      else String c (dropLineFeeds rest)
  end.

(** Every character of a string satisfies [P]. *)
Fixpoint allChars (P : ascii -> Prop) (s : string) : Prop :=
  match s with
  | EmptyString => True
  | String c rest => P c /\ allChars P rest
  end.

(** Characters that are neither a line feed nor the dash of the PEM
    boundary lines. *)
Definition plainChar (c : ascii) : Prop := c <> lineFeed /\ c <> "-"%char.

(** ** The request and its outcome *)

(** The fields of the request after the framework has type-checked them
    and filled in the schema defaults. *)
Record FieldData : Type := mkFieldData {
  issuer_ref : string;
  crl_number : Z;
  delta_crl_base_number : Z;
  next_update : string;
  crls : list string;
  format : string
}.

Definition crlNumberParam : string := "crl_number".
Definition deltaCrlBaseNumberParam : string := "delta_crl_base_number".
Definition nextUpdateParam : string := "next_update".
Definition crlsParam : string := "crls".
Definition formatParam : string := "format".

(** [*x509.Certificate] and the issuer's signing key, as opaque material. *)
Record Certificate : Type := mkCertificate { RawCertificate : list Z }.
Record PrivateKey : Type := mkPrivateKey { keyMaterial : list Z }.

(** [certutil.CAInfoBundle], the fields this endpoint reads. *)
Record CAInfoBundle : Type := mkCAInfoBundle {
  bundleCertificate : Certificate;
  bundlePrivateKey : PrivateKey;
  RevocationSigAlg : Z
}.

(** [*logical.Response]: either [logical.ErrorResponse(text)] or the
    response carrying the warnings and the ["crl"] datum. *)
Inductive Response : Type :=
| ErrorResponse (text : string)
| CrlResponse (Warnings : list string) (crl : string).

(** What the handler hands back to the framework. *)
Inductive Returned : Type :=
| Respond (resp : Response)   (* return resp, nil *)
| Fail (err : string)         (* return nil, err *)
| Crash (reason : string).    (* run-time panic *)

(** The calls the handler body makes, in program order. *)
Inductive Call : Type :=
| Call_getCrlFormat (requestedValue : string)
| Call_ParseDuration (text : string)
| Call_decodePemCrls
| Call_getCaBundle (issuerRef : string)
| Call_verifyCrlsAreFromIssuersKey
| Call_getAllRevokedCerts
| Call_Now
| Call_CreateDeltaCRLIndicatorExt (completeCRLNumber : Z)
| Call_CreateRevocationList (template : RevocationList)
| Call_encodeResponse (crlBytes : list byte) (derFormatRequested : bool).

(** The handler body as a computation that logs its calls and may return
    early. *)
Definition Handler (A : Type) : Type := list Call * (A + Returned).

Definition pure {A : Type} (a : A) : Handler A := ([], inl a).

Definition leave {A : Type} (r : Returned) : Handler A := ([], inr r).

Definition andThen {A B : Type} (m : Handler A) (k : A -> Handler B) : Handler B :=
  match m with
  | (log, inl a) => let '(log', r) := k a in (log ++ log', r)
  | (log, inr r) => (log, inr r)
  end.

(** [v, err := f(...); if err != nil { return onErr(err) }] *)
Definition attempt {A : Type} (c : Call) (r : Result A) (onErr : string -> Returned)
  : Handler A :=
  match r with
  | Ok a => ([c], inl a)
  | Err e => ([c], inr (onErr e))
  end.

(** The same for a callee that can panic: the panic unwinds the handler. *)
Definition attemptOrPanic {A : Type} (c : Call) (o : Outcome A)
    (onErr : string -> Returned) : Handler A :=
  match o with
  | Done r => attempt c r onErr
  | Panic reason => ([c], inr (Crash reason))
  end.

(** [v := f(...)] for a callee without an error result. *)
Definition call {A : Type} (c : Call) (a : A) : Handler A := ([c], inl a).

(** [if cond { return r }] *)
Definition leaveIf (cond : bool) (r : Returned) : Handler unit :=
  if cond then leave r else pure tt.

Definition finish (m : Handler Returned) : list Call * Returned :=
  match m with
  | (log, inl r) => (log, r)
  | (log, inr r) => (log, r)
  end.

Notation "x <- m ;; k" := (andThen m (fun x => k))
  (at level 100, m at next level, right associativity, only parsing).
Notation "m ;;; k" := (andThen m (fun _ => k))
  (at level 100, right associativity, only parsing).

Definition errorResponse (text : string) : Returned := Respond (ErrorResponse text).

(** ** External collaborators *)

(** Everything the file calls but does not define: the rest of the
    package, the Vault SDK and the Go standard library. *)
Class Externals : Type := {
  (* package pki *)
  serialFromBigInt : Z -> string;
  issuerRefParam : string;
  useLegacyBundleCaStorage : bool;
  getIssuerRef : FieldData -> string;
  resolveIssuerReference : string -> Result string;
  fetchCAInfoByIssuerId : string -> Result CAInfoBundle;
  (* sdk/helper/certutil *)
  CreateDeltaCRLIndicatorExt : Z -> Result Extension;
  (* time *)
  time_ParseDuration : string -> Result Z;
  time_Now : Time;
  (* encoding/pem *)
  pem_Decode : list byte -> option Block * list byte;
  (* crypto/x509 *)
  x509_ParseRevocationList : list byte -> Result RevocationList;
  CheckSignatureFrom : RevocationList -> Certificate -> option string;
  x509_CreateRevocationList :
    RevocationList -> Certificate -> PrivateKey -> Result (list byte);
  (* the runtime's map iteration order *)
  rangeOrder : RangeOrder
}.

(** ** The functions of [path_resign_crls.go] *)

Definition encodeResponse (crlBytes : list byte) (derFormatRequested : bool) : string :=
  if derFormatRequested then base64_EncodeToString crlBytes
  else
    let block := {| Type_ := "X509 CRL"; Bytes := crlBytes |} in
    string_of_list_byte (pem_EncodeToMemory block).

Definition getCrlFormat (requestedValue : string) : Result string :=
  let format := strings_ToLower requestedValue in
  if String.eqb format "pem" || String.eqb format "der" then Ok format
  else Err ("unknown format value of " +:+ requestedValue).

Section Functions.

Context {ext : Externals}.

Fixpoint verifyCrlsFrom (caCert : Certificate) (i : nat)
    (crls : list RevocationList) : option string :=
  match crls with
  | [] => None
  | crl :: rest =>
      match CheckSignatureFrom crl caCert with
      | Some _ =>
          Some ("CRL index: " +:+ pretty i +:+ " was not signed by requested issuer")
      | None => verifyCrlsFrom caCert (S i) rest
      end
  end.

Definition verifyCrlsAreFromIssuersKey (caCert : Certificate)
    (crls : list RevocationList) : option string :=
  verifyCrlsFrom caCert 0%nat crls.

Definition getCaBundle (issuerRef : string) : Result CAInfoBundle :=
  match resolveIssuerReference issuerRef with
  | Ok issuerId => fetchCAInfoByIssuerId issuerId
  | Err err => Err ("failed to resolve issuer " +:+ issuerRefParam +:+ ": " +:+ err)
  end.

Definition decodePemCrl (crl : string) : Outcome RevocationList :=
  let '(block, rest) := pem_Decode (list_byte_of_string crl) in
  if negb (length rest =? 0)%nat
  then Done (Err "invalid crl; should be one PEM block only")
  else
    match block with
    | None => Panic "invalid memory address or nil pointer dereference"
    | Some b => Done (x509_ParseRevocationList (Bytes b))
    end.

Fixpoint decodePemCrlsFrom (i : nat) (rawCrls : list string)
    (crls : list RevocationList) : Outcome (list RevocationList) :=
  match rawCrls with
  | [] => Done (Ok crls)
  | rawCrl :: rest =>
      match decodePemCrl rawCrl with
      | Done (Ok crl) => decodePemCrlsFrom (S i) rest (crls ++ [crl])
      | Done (Err err) =>
          Done (Err ("failed decoding crl " +:+ pretty i +:+ ": " +:+ err))
      | Panic reason => Panic reason
      end
  end.

Definition decodePemCrls (rawCrls : list string) : Outcome (list RevocationList) :=
  decodePemCrlsFrom 0%nat rawCrls [].

Definition pathUpdateResignCrlsHandler (data : FieldData) : list Call * Returned :=
  finish (
    leaveIf useLegacyBundleCaStorage
      (errorResponse "This API cannot be used until the migration has completed") ;;;
    let issuerRef := getIssuerRef data in
    let crlNumber := crl_number data in
    let deltaCrlBaseNumber := delta_crl_base_number data in
    let nextUpdateStr := next_update data in
    let rawCrls := crls data in
    format <- attempt (Call_getCrlFormat (format data)) (getCrlFormat (format data))
                errorResponse ;;
    nextUpdateOffset <- attempt (Call_ParseDuration nextUpdateStr)
                          (time_ParseDuration nextUpdateStr)
                          (fun err => errorResponse
                             ("invalid value for " +:+ nextUpdateParam +:+ ": " +:+ err)) ;;
    leaveIf (nextUpdateOffset <=? 0)
      (errorResponse (nextUpdateParam +:+ " parameter must be greater than 0")) ;;;
    leaveIf (crlNumber <? 0)
      (errorResponse (crlNumberParam +:+ " parameter must be 0 or greater")) ;;;
    leaveIf (deltaCrlBaseNumber <? -1)
      (errorResponse (deltaCrlBaseNumberParam +:+ " parameter must be -1 or greater")) ;;;
    leaveIf (String.eqb issuerRef "")
      (errorResponse (issuerRefParam +:+ " parameter cannot be blank")) ;;;
    providedCrls <- attemptOrPanic Call_decodePemCrls (decodePemCrls rawCrls)
                      errorResponse ;;
    caBundle <- attempt (Call_getCaBundle issuerRef) (getCaBundle issuerRef)
                  errorResponse ;;
    attempt Call_verifyCrlsAreFromIssuersKey
      (match verifyCrlsAreFromIssuersKey (bundleCertificate caBundle) providedCrls with
       | Some err => Err err
       | None => Ok tt
       end) errorResponse ;;;
    merged <- attempt Call_getAllRevokedCerts
                (match getAllRevokedCerts serialFromBigInt rangeOrder providedCrls with
                 | (revokedCerts, warnings, None) => Ok (revokedCerts, warnings)
                 | (_, _, Some err) => Err err
                 end) errorResponse ;;
    let '(revokedCerts, warnings) := merged in
    now <- call Call_Now time_Now ;;
    let template :=
      {| RawTBSRevocationList := [];
         Signature := [];
         SignatureAlgorithm := RevocationSigAlg caBundle;
         RevokedCertificates := revokedCerts;
         Number := crlNumber;
         ThisUpdate := now;
         NextUpdate := Time_Add now nextUpdateOffset;
         ExtraExtensions := [] |} in
    template <-
      (if -1 <? deltaCrlBaseNumber then
         ext <- attempt (Call_CreateDeltaCRLIndicatorExt deltaCrlBaseNumber)
                  (CreateDeltaCRLIndicatorExt deltaCrlBaseNumber)
                  (fun err => Fail
                     ("could not create crl delta indicator extension: " +:+ err)) ;;
         pure (withExtraExtensions template [ext])
       else pure template) ;;
    crlBytes <- attempt (Call_CreateRevocationList template)
                  (x509_CreateRevocationList template
                     (bundleCertificate caBundle) (bundlePrivateKey caBundle))
                  (fun err => Fail ("error creating new CRL: " +:+ err)) ;;
    body <- call (Call_encodeResponse crlBytes (String.eqb format "der"))
              (encodeResponse crlBytes (String.eqb format "der")) ;;
    pure (Respond (CrlResponse warnings body))).

End Functions.

(** ** Vocabulary of the properties *)

(** All ways of writing a word in upper and lower case letters. *)
Definition upperByte (c : ascii) : ascii :=
  let n := N_of_ascii c in
  if ((97 <=? n) && (n <=? 122))%N then ascii_of_N (n - 32) else c.

Fixpoint casings (word : string) : list string :=
  match word with
  | EmptyString => [EmptyString]
  | String c rest =>
      let tails := casings rest in
      map (String c) tails ++
      (if Ascii.eqb (upperByte c) c then [] else map (String (upperByte c)) tails)
  end.

(** The tokens the [format] field accepts. *)
Definition acceptedFormats : list string := casings "pem" ++ casings "der".

Section Vocabulary.

Context {ext : Externals}.

(** The request passes every check made on its fields alone. *)
Record FieldsValid (data : FieldData) (fmt : string) (offset : Z) : Prop := {
  migration_done : useLegacyBundleCaStorage = false;
  format_known : getCrlFormat (format data) = Ok fmt;
  duration_parsed : time_ParseDuration (next_update data) = Ok offset;
  duration_positive : 0 < offset;
  crl_number_valid : 0 <= crl_number data;
  delta_base_valid : -1 <= delta_crl_base_number data;
  issuer_given : getIssuerRef data <> ""
}.

(** The request's lists decode and the issuer resolves. *)
Record Decoded (data : FieldData) (providedCrls : list RevocationList)
    (caBundle : CAInfoBundle) : Prop := {
  crls_decoded : decodePemCrls (crls data) = Done (Ok providedCrls);
  issuer_resolved : getCaBundle (getIssuerRef data) = Ok caBundle
}.

(** [i] is the first position whose list the issuer's certificate does
    not vouch for. *)
Definition FirstUnsigned (caCert : Certificate) (crls : list RevocationList)
    (i : nat) : Prop :=
  (exists crl err, crls !! i = Some crl /\ CheckSignatureFrom crl caCert = Some err) /\
  (forall j crl, (j < i)%nat -> crls !! j = Some crl ->
                 CheckSignatureFrom crl caCert = None).

(** [raw] is one PEM block, with nothing after it, that holds [crl]. *)
Definition HoldsCrl (raw : string) (crl : RevocationList) : Prop :=
  exists block,
    pem_Decode (list_byte_of_string raw) = (Some block, []) /\
    x509_ParseRevocationList (Bytes block) = Ok crl.

(** The failures that are not the builder's or the signer's, stated on
    the request and the collaborators alone: a mount whose migration is
    pending, a field out of range, a text that is not one PEM block
    holding a list, an issuer that cannot be found, a list the issuer's
    certificate does not vouch for. *)
Inductive ValidationFailure (data : FieldData) : Prop :=
| migration_pending :
    useLegacyBundleCaStorage = true -> ValidationFailure data
| unknown_format :
    (format data ∉ acceptedFormats) -> ValidationFailure data
| unparsable_duration e :
    time_ParseDuration (next_update data) = Err e -> ValidationFailure data
| non_positive_duration d :
    time_ParseDuration (next_update data) = Ok d -> d <= 0 -> ValidationFailure data
| negative_crl_number :
    crl_number data < 0 -> ValidationFailure data
| delta_base_below_sentinel :
    delta_crl_base_number data < -1 -> ValidationFailure data
| blank_issuer :
    getIssuerRef data = "" -> ValidationFailure data
| malformed_crl raw :
    raw ∈ crls data -> (forall crl, ~ HoldsCrl raw crl) -> ValidationFailure data
| unresolved_issuer e :
    getCaBundle (getIssuerRef data) = Err e -> ValidationFailure data
| foreign_crl providedCrls caBundle crl e :
    Forall2 HoldsCrl (crls data) providedCrls ->
    getCaBundle (getIssuerRef data) = Ok caBundle ->
    crl ∈ providedCrls ->
    CheckSignatureFrom crl (bundleCertificate caBundle) = Some e ->
    ValidationFailure data.

(** The request passes every check: its fields are in range, its texts
    hold [providedCrls], its issuer is [caBundle] and vouches for every
    list. *)
Record Accepted (data : FieldData) (offset : Z)
    (providedCrls : list RevocationList) (caBundle : CAInfoBundle) : Prop := {
  fields_in_range : exists fmt, FieldsValid data fmt offset;
  texts_hold_lists : Forall2 HoldsCrl (crls data) providedCrls;
  issuer_found : getCaBundle (getIssuerRef data) = Ok caBundle;
  lists_vouched_for :
    Forall (fun crl => CheckSignatureFrom crl (bundleCertificate caBundle) = None)
           providedCrls
}.

(** The template built for an accepted request (lines 135 to 150), with
    the extra extensions [exts]. *)
Definition resignTemplate (data : FieldData) (offset : Z)
    (providedCrls : list RevocationList) (caBundle : CAInfoBundle)
    (exts : list Extension) : RevocationList :=
  {| RawTBSRevocationList := [];
     Signature := [];
     SignatureAlgorithm := RevocationSigAlg caBundle;
     RevokedCertificates :=
       (getAllRevokedCerts serialFromBigInt rangeOrder providedCrls).1.1;
     Number := crl_number data;
     ThisUpdate := time_Now;
     NextUpdate := Time_Add time_Now offset;
     ExtraExtensions := exts |}.

(** The failures of the builder and the signer on an accepted request:
    the Delta CRL Indicator cannot be encoded for the requested base
    number, or the signer refuses the template. *)
Inductive InternalFailure (data : FieldData) : string -> Prop :=
| extension_failure offset providedCrls caBundle e :
    Accepted data offset providedCrls caBundle ->
    0 <= delta_crl_base_number data ->
    CreateDeltaCRLIndicatorExt (delta_crl_base_number data) = Err e ->
    InternalFailure data ("could not create crl delta indicator extension: " +:+ e)
| signing_failure offset providedCrls caBundle exts e :
    Accepted data offset providedCrls caBundle ->
    (delta_crl_base_number data = -1 /\ exts = [] \/
     0 <= delta_crl_base_number data /\
     exists indicator,
       CreateDeltaCRLIndicatorExt (delta_crl_base_number data) = Ok indicator /\
       exts = [indicator]) ->
    x509_CreateRevocationList (resignTemplate data offset providedCrls caBundle exts)
      (bundleCertificate caBundle) (bundlePrivateKey caBundle) = Err e ->
    InternalFailure data ("error creating new CRL: " +:+ e).

End Vocabulary.

(** ** Test doubles of the collaborators *)

Module Double.

(** A toy wire format for revocation lists: the signer's tag, then one
    (serial, revocation time) pair of bytes per revoked certificate. *)
Fixpoint parseEntries (payload : list byte) : option (list RevokedCertificate) :=
  match payload with
  | [] => Some []
  | serial :: time :: rest =>
      match parseEntries rest with
      | Some entries =>
          Some ({| SerialNumber := Z.of_N (Byte.to_N serial);
                   RevocationTime := {| unixNano := Z.of_N (Byte.to_N time);
                                        location := "UTC" |};
                   Extensions := [ {| Id := [2; 5; 29; 21]; Critical := false;
                                      Value := [10; 1; 1] |} ] |} :: entries)
      | None => None
      end
  | _ => None
  end.

Definition parseRevocationList (der : list byte) : Result RevocationList :=
  match der with
  | [] => Err "x509: malformed crl"
  | signer :: payload =>
      match parseEntries payload with
      | Some entries =>
          Ok {| RawTBSRevocationList := map (fun b => Z.of_N (Byte.to_N b)) payload;
                Signature := [Z.of_N (Byte.to_N signer)];
                SignatureAlgorithm := 4;
                RevokedCertificates := entries;
                Number := 1;
                ThisUpdate := {| unixNano := 0; location := "UTC" |};
                NextUpdate := {| unixNano := 100; location := "UTC" |};
                ExtraExtensions := [] |}
      | None => Err "x509: malformed crl"
      end
  end.

Definition checkSignatureFrom (crl : RevocationList) (parent : Certificate)
  : option string :=
  if decide (Signature crl = RawCertificate parent) then None
  else Some "crypto/rsa: verification error".

Definition byteOfZ (z : Z) : byte := byteOf (Z.to_N z).

Definition createRevocationList (fails : bool) (template : RevocationList)
    (issuer : Certificate) (priv : PrivateKey) : Result (list byte) :=
  if fails then Err "x509: requested SignatureAlgorithm does not match private key type"
  else
    Ok (map byteOfZ (RawCertificate issuer) ++
        flat_map (fun c => [byteOfZ (SerialNumber c); byteOfZ (unixNano (RevocationTime c))])
                 (RevokedCertificates template)).

Definition createDeltaCRLIndicatorExt (fails : bool) (completeCRLNumber : Z)
  : Result Extension :=
  if fails then Err "asn1: structure error"
  else Ok {| Id := [2; 5; 29; 27]; Critical := true; Value := [2; 1; completeCRLNumber] |}.

(** Reads one block written the way [pem.EncodeToMemory] writes it, at
    the very start of the data. *)
Definition pemDecode (data : list byte) : option Block * list byte :=
  let text := string_of_list_byte data in
  if negb (String.prefix "-----BEGIN " text) then (None, data) else
  let afterBegin := String.substring 11 (String.length text - 11) text in
  match String.index 0 ("-----" +:+ nl) afterBegin with
  | None => (None, data)
  | Some n =>
      let type := String.substring 0 n afterBegin in
      let body := String.substring (n + 6) (String.length afterBegin - (n + 6)) afterBegin in
      match String.index 0 (pemEnd type) body with
      | None => (None, data)
      | Some m =>
          match base64_DecodeString (dropLineFeeds (String.substring 0 m body)) with
          | None => (None, data)
          | Some bytes =>
              let stop := (m + String.length (pemEnd type))%nat in
              (Some {| Type_ := type; Bytes := bytes |},
               list_byte_of_string
                 (String.substring stop (String.length body - stop) body))
          end
      end
  end.

Definition parseDuration (text : string) : Result Z :=
  if String.eqb text "72h" then Ok 259200000000000
  else if String.eqb text "1h" then Ok 3600000000000
  else if String.eqb text "0s" then Ok 0
  else if String.eqb text "-1h" then Ok (-3600000000000)
  else Err ("time: invalid duration " +:+ text).

(** Serials keyed by their decimal text. *)
Definition decimal (serial : Z) : string := pretty serial.

Definition issuerCert : Certificate := {| RawCertificate := [7] |}.
Definition issuerKey : PrivateKey := {| keyMaterial := [42] |}.
Definition issuerBundle : CAInfoBundle :=
  {| bundleCertificate := issuerCert; bundlePrivateKey := issuerKey;
     RevocationSigAlg := 4 |}.

(** The collaborators of a mount whose only issuer is ["default"];
    the switches make the migration pending, the extension encoder
    fail and the signer fail. *)
Definition externals (legacy extFails signFails : bool) (order : RangeOrder)
  : Externals :=
  {| serialFromBigInt := decimal;
     issuerRefParam := "issuer_ref";
     useLegacyBundleCaStorage := legacy;
     getIssuerRef := issuer_ref;
     resolveIssuerReference := fun ref =>
       if String.eqb ref "default" then Ok "issuer-1"
       else Err ("unable to find issuer for reference: " +:+ ref);
     fetchCAInfoByIssuerId := fun _ => Ok issuerBundle;
     CreateDeltaCRLIndicatorExt := createDeltaCRLIndicatorExt extFails;
     time_ParseDuration := parseDuration;
     time_Now := {| unixNano := 1000; location := "Local" |};
     pem_Decode := pemDecode;
     x509_ParseRevocationList := parseRevocationList;
     CheckSignatureFrom := checkSignatureFrom;
     x509_CreateRevocationList := createRevocationList signFails;
     rangeOrder := order |}.

Definition healthy : Externals := externals false false false insertionOrder.

(** PEM text of a toy list signed by [signer] with the given entries. *)
Definition pemCrl (signer : Z) (entries : list (Z * Z)) : string :=
  encodeResponse
    (byteOfZ signer :: flat_map (fun e => [byteOfZ (fst e); byteOfZ (snd e)]) entries)
    false.

Definition request (crlTexts : list string) (fmt : string) (delta : Z) : FieldData :=
  {| issuer_ref := "default"; crl_number := 5; delta_crl_base_number := delta;
     next_update := "1h"; crls := crlTexts; format := fmt |}.

Definition revoked (serial time : Z) : RevokedCertificate :=
  {| SerialNumber := serial;
     RevocationTime := {| unixNano := time; location := "UTC" |};
     Extensions := [ {| Id := [2; 5; 29; 21]; Critical := false; Value := [10; 1; 1] |} ] |}.

Definition crlOf (entries : list RevokedCertificate) : RevocationList :=
  {| RawTBSRevocationList := []; Signature := [7]; SignatureAlgorithm := 4;
     RevokedCertificates := entries; Number := 1;
     ThisUpdate := {| unixNano := 0; location := "UTC" |};
     NextUpdate := {| unixNano := 100; location := "UTC" |};
     ExtraExtensions := [] |}.

End Double.

(** * Cassandra connection helpers

    A shallow embedding of [builtin/logical/cassandra/util.go]:
    [substQuery] and [createSession]. *)

Module Cassandra.

(** ** Go library functions *)

(** [strings.ReplaceAll s old new] for a pattern [old] that is not empty:
    the occurrences of [old] are found from left to right, without
    overlap, and the inserted text is not searched again.  [skip] is the
    number of characters of a match still to be passed over. *)
Fixpoint replaceFrom (skip : nat) (s old new : string) : string :=
  match s with
  | EmptyString => EmptyString
  | String c rest =>
      match skip with
      | S n => replaceFrom n rest old new
      | O =>
          if String.prefix old s
          then new +:+ replaceFrom (String.length old - 1) rest old new
          else String c (replaceFrom 0 rest old new)
      end
  end.

Definition strings_ReplaceAll (s old new : string) : string := replaceFrom 0 s old new.

(** [strings.Split s sep] for a separator of one byte: the pieces between
    the separators, one more than there are separators. *)
Fixpoint strings_Split (s : string) (sep : ascii) : list string :=
  match s with
  | EmptyString => [EmptyString]
  | String c rest =>
      if Ascii.eqb c sep then EmptyString :: strings_Split rest sep
      else
        match strings_Split rest sep with
        | piece :: pieces => String c piece :: pieces
        | [] => [String c EmptyString]
        end
  end.

(** Conversion to [int64] with wrap-around, and [time.Second]. *)
Definition wrap64 (z : Z) : Z := (z + 2 ^ 63) mod 2 ^ 64 - 2 ^ 63.
Definition time_Second : Z := 1000000000.

(** Ranging over a [map[string]string]: any rearrangement of its entries. *)
Record EntryOrder : Type := mkEntryOrder {
  ranged :> list (string * string) -> list (string * string);
  ranged_perm : forall l, ranged l ≡ₚ l
}.

Definition asListed : EntryOrder :=
  {| ranged := fun l => l; ranged_perm := fun l => reflexivity l |}.

Definition backwards : EntryOrder :=
  {| ranged := reverse; ranged_perm := reverse_Permutation |}.

(** ** [substQuery] *)

(** [fmt.Sprintf("{{%s}}", k)] *)
Definition placeholder (k : string) : string := "{{" +:+ k +:+ "}}".

Definition substQuery (order : EntryOrder) (tpl : string) (data : gmap string string)
  : string :=
  fold_left (fun tpl kv => strings_ReplaceAll tpl (placeholder kv.1) kv.2)
            (order (map_to_list data)) tpl.

(** ** [createSession] *)

(** [sessionConfig], declared with the connection path of the backend. *)
Record sessionConfig : Type := mkSessionConfig {
  Hosts : string;
  Username : string;
  Password : string;
  TLS : bool;
  InsecureTLS : bool;
  Certificate : string;
  PrivateKey : string;
  IssuingCA : string;
  ProtocolVersion : Z;
  ConnectTimeout : Z;
  TLSMinVersion : string
}.

(** [certutil.CertBundle], the fields that are set here; the zero value
    of each is the empty string. *)
Record CertBundle : Type := mkCertBundle {
  bundle_Certificate : string;
  bundle_PrivateKey : string;
  bundle_IssuingCA : string
}.

(** [certutil.ParsedCertBundle], opaque. *)
Record ParsedCertBundle : Type := mkParsedCertBundle { parsedMaterial : string }.

(** [tls.Config], the fields that are set here and the rest. *)
Record TLSConfig : Type := mkTLSConfig {
  InsecureSkipVerify : bool;
  MinVersion : Z;
  tlsMaterial : string
}.

(** [gocql.ClusterConfig], the fields that are set here.  [SslOpts] is a
    pointer to a struct whose [Config] is itself a pointer. *)
Record ClusterConfig : Type := mkClusterConfig {
  ClusterHosts : list string;
  Authenticator : option (string * string);
  ProtoVersion : Z;
  Timeout : Z;
  SslOpts : option (option TLSConfig)
}.

(** [*gocql.Session], opaque. *)
Record Session : Type := mkSession { sessionId : Z }.

(** [gocql.NewCluster]: the hosts as given, the other fields at the
    library's defaults. *)
Definition gocql_NewCluster (hosts : list string) : ClusterConfig :=
  {| ClusterHosts := hosts;
     Authenticator := None;
     ProtoVersion := 0;
     Timeout := 600000000;
     SslOpts := None |}.

(** What reaches the network. *)
Inductive Net : Type :=
| Net_CreateSession (cluster : ClusterConfig)
| Net_Exec (query : string).

(** What the file calls but does not define. *)
Class Driver : Type := {
  (* sdk/helper/certutil *)
  ToParsedCertBundle : CertBundle -> Result ParsedCertBundle;
  GetTLSConfig : ParsedCertBundle -> option TLSConfig * option string;
  (* go-secure-stdlib/tlsutil *)
  TLSLookup : gmap string Z;
  (* fmt: the text of a [*tls.Config] under the verb %#v *)
  goSyntax : option TLSConfig -> string;
  (* gocql *)
  CreateSession : ClusterConfig -> Result Session;
  Exec : Session -> string -> option string
}.

(** The text of an error under the verb %w; a nil operand is reported by
    [fmt] in its own way. *)
Definition wrapped (err : option string) : string :=
  match err with
  | Some e => e
  | None => "%!w(<nil>)"
  end.

Definition nonEmpty (s : string) : bool := (0 <? String.length s)%nat.

Section Connection.

Context {driver : Driver}.

Definition createSession (cfg : sessionConfig) : list Net * Result Session :=
  let clusterConfig := gocql_NewCluster (strings_Split (Hosts cfg) ",") in
  let clusterConfig :=
    {| ClusterHosts := ClusterHosts clusterConfig;
       Authenticator := Some (Username cfg, Password cfg);
       ProtoVersion := ProtocolVersion cfg;
       Timeout := Timeout clusterConfig;
       SslOpts := SslOpts clusterConfig |} in
  let clusterConfig :=
    if ProtoVersion clusterConfig =? 0
    then {| ClusterHosts := ClusterHosts clusterConfig;
            Authenticator := Authenticator clusterConfig;
            ProtoVersion := 2;
            Timeout := Timeout clusterConfig;
            SslOpts := SslOpts clusterConfig |}
    else clusterConfig in
  let clusterConfig :=
    {| ClusterHosts := ClusterHosts clusterConfig;
       Authenticator := Authenticator clusterConfig;
       ProtoVersion := ProtoVersion clusterConfig;
       Timeout := wrap64 (wrap64 (ConnectTimeout cfg) * time_Second);
       SslOpts := SslOpts clusterConfig |} in
  let withTLS : Result ClusterConfig :=
    if TLS cfg then
      let tlsConfig : Result (option TLSConfig) :=
        if nonEmpty (Certificate cfg) || nonEmpty (IssuingCA cfg) then
          if nonEmpty (Certificate cfg) && negb (nonEmpty (PrivateKey cfg)) then
            Err "found certificate for TLS authentication but no private key"
          else
            let certBundle :=
              {| bundle_Certificate := ""; bundle_PrivateKey := ""; bundle_IssuingCA := "" |} in
            let certBundle :=
              if nonEmpty (Certificate cfg)
              then {| bundle_Certificate := Certificate cfg;
                      bundle_PrivateKey := PrivateKey cfg;
                      bundle_IssuingCA := bundle_IssuingCA certBundle |}
              else certBundle in
            let certBundle :=
              if nonEmpty (IssuingCA cfg)
              then {| bundle_Certificate := bundle_Certificate certBundle;
                      bundle_PrivateKey := bundle_PrivateKey certBundle;
                      bundle_IssuingCA := IssuingCA cfg |}
              else certBundle in
            match ToParsedCertBundle certBundle with
            | Err err => Err ("failed to parse certificate bundle: " +:+ err)
            | Ok parsedCertBundle =>
                match GetTLSConfig parsedCertBundle with
                | (Some tlsConfig, None) =>
                    let tlsConfig :=
                      {| InsecureSkipVerify := InsecureTLS cfg;
                         MinVersion := MinVersion tlsConfig;
                         tlsMaterial := tlsMaterial tlsConfig |} in
                    if negb (String.eqb (TLSMinVersion cfg) "") then
                      match TLSLookup !! TLSMinVersion cfg with
                      | Some version =>
                          Ok (Some {| InsecureSkipVerify := InsecureSkipVerify tlsConfig;
                                      MinVersion := version;
                                      tlsMaterial := tlsMaterial tlsConfig |})
                      | None => Err "invalid 'tls_min_version' in config"
                      end
                    else
                      Ok (Some {| InsecureSkipVerify := InsecureSkipVerify tlsConfig;
                                  MinVersion := 0;
                                  tlsMaterial := tlsMaterial tlsConfig |})
                | (tlsConfig, err) =>
                    Err ("failed to get TLS configuration: tlsConfig: "
                         +:+ goSyntax tlsConfig +:+ "; " +:+ wrapped err)
                end
            end
        else Ok None in
      match tlsConfig with
      | Err err => Err err
      | Ok tlsConfig =>
          Ok {| ClusterHosts := ClusterHosts clusterConfig;
                Authenticator := Authenticator clusterConfig;
                ProtoVersion := ProtoVersion clusterConfig;
                Timeout := Timeout clusterConfig;
                SslOpts := Some tlsConfig |}
      end
    else Ok clusterConfig in
  match withTLS with
  | Err err => ([], Err err)
  | Ok clusterConfig =>
      match CreateSession clusterConfig with
      | Err err =>
          ([Net_CreateSession clusterConfig], Err ("error creating session: " +:+ err))
      | Ok session =>
          match Exec session "LIST USERS" with
          | Some err =>
              ([Net_CreateSession clusterConfig; Net_Exec "LIST USERS"],
               Err ("error validating connection info: " +:+ err))
          | None =>
              ([Net_CreateSession clusterConfig; Net_Exec "LIST USERS"], Ok session)
          end
      end
  end.

End Connection.

(** ** Vocabulary and a test double *)

(** No occurrence of [{{] in a text, and no [{] at all. *)
Fixpoint noPlaceholder (s : string) : Prop :=
  match s with
  | String "{" (String "{" _) => False
  | String _ rest => noPlaceholder rest
  | EmptyString => True
  end.

Definition noBrace (s : string) : Prop := allChars (fun c => c <> "{"%char) s.

(** A driver whose server accepts every connection that asks for
    protocol version 4, and none else. *)
Definition testDriver : Driver :=
  {| ToParsedCertBundle := fun b =>
       if String.eqb (bundle_Certificate b) "garbage" then Err "failed to decode PEM"
       else Ok {| parsedMaterial := bundle_Certificate b +:+ bundle_IssuingCA b |};
     GetTLSConfig := fun p =>
       (Some {| InsecureSkipVerify := false; MinVersion := 771;
                tlsMaterial := parsedMaterial p |}, None);
     TLSLookup := {[ "tls10" := 769; "tls11" := 770; "tls12" := 771; "tls13" := 772 ]};
     goSyntax := fun _ => "&tls.Config{}";
     CreateSession := fun cluster =>
       if ProtoVersion cluster =? 4 then Ok {| sessionId := 1 |}
       else Err "gocql: unable to create session";
     Exec := fun _ _ => None |}.

Definition testConfig : sessionConfig :=
  {| Hosts := "10.0.0.1,10.0.0.2"; Username := "vault"; Password := "secret";
     TLS := true; InsecureTLS := true; Certificate := "cert"; PrivateKey := "key";
     IssuingCA := ""; ProtocolVersion := 4; ConnectTimeout := 5;
     TLSMinVersion := "tls12" |}.

End Cassandra.

(** * Properties *)

(** ** Strings *)

Lemma length_append (s t : string) :
  String.length (s +:+ t) = (String.length s + String.length t)%nat.
Proof. induction s as [|c s IH]; simpl; [done|]. by f_equal. Qed.

Lemma append_cancel_r (s t r : string) : s +:+ r = t +:+ r -> s = t.
Proof.
  revert t. induction s as [|c s IH]; intros [|d t] H.
  - done.
  - apply (f_equal String.length) in H. rewrite !length_append in H. simpl in H. lia.
  - apply (f_equal String.length) in H. rewrite !length_append in H. simpl in H. lia.
  - simpl in H. injection H as -> H. f_equal. by apply IH.
Qed.

Lemma append_assoc (s t r : string) : (s +:+ t) +:+ r = s +:+ (t +:+ r).
Proof.
  induction s as [|c s IH]; [done|].
  change (String c ((s +:+ t) +:+ r) = String c (s +:+ (t +:+ r))). by rewrite IH.
Qed.

Lemma duplicateWarning_inj (s t : string) :
  duplicateWarning s = duplicateWarning t -> s = t.
Proof.
  unfold duplicateWarning. intros H.
  apply (String.app_inj "Duplicate serial ") in H.
  by apply append_cancel_r in H.
Qed.

(** ** The reconciler *)

Section ReconcilerFacts.

Variable key : Z -> string.

Local Abbreviation serial := (serialOf key).
Local Abbreviation step := (mergeCert key).
Local Abbreviation Sound := (Sound key).

Lemma mergeCrls_entries st crls :
  mergeCrls key st crls = fold_left step (entriesOf crls) st.
Proof.
  revert st. induction crls as [|crl crls IH]; intros st; [done|].
  unfold entriesOf. cbn [map concat mergeCrls fold_left].
  rewrite fold_left_app. apply IH.
Qed.

Lemma step_unfold m w e :
  step (m, w) e =
    match m !! serial e with
    | None => (<[serial e := clearExtensions e]> m, w)
    | Some x =>
        if decide (instantOf x = instantOf e) then (m, w)
        else (if decide (instantOf e < instantOf x)
              then <[serial e := clearExtensions e]> m else m,
              w ++ [duplicateWarning (serial e)])
    end.
Proof.
  unfold mergeCert. fold (serial e). destruct (m !! serial e) as [x|]; [|done].
  unfold Time_Equal, Time_After. cbn [RevocationTime clearExtensions].
  fold (instantOf x) (instantOf e).
  destruct (Z.eqb_spec (instantOf x) (instantOf e)); case_decide; try done.
  destruct (Z.ltb_spec (instantOf e) (instantOf x)); case_decide; done || lia.
Qed.

Lemma serial_clear e : serial (clearExtensions e) = serial e.
Proof. done. Qed.

Lemma instant_clear e : instantOf (clearExtensions e) = instantOf e.
Proof. done. Qed.

Lemma Sound_start : Sound [] (∅, []).
Proof.
  split; cbn.
  - intros k c H. by rewrite lookup_empty in H.
  - intros e H. by apply elem_of_nil in H.
Qed.

Lemma Sound_step seen st e : Sound seen st -> Sound (seen ++ [e]) (step st e).
Proof.
  intros [Hin Hmin]. destruct st as [m w]. cbn in Hin, Hmin.
  unfold mergeCert. fold (serial e).
  destruct (m !! serial e) as [x|] eqn:Hx.
  - unfold Time_Equal, Time_After.
    fold (instantOf x) (instantOf (clearExtensions e)). rewrite instant_clear.
    destruct (Z.eqb_spec (instantOf x) (instantOf e)) as [Heq|Hne].
    { split; cbn.
      - intros k c Hk. pose proof (Hin k c Hk) as [? [e' [? ?]]].
        split; [done|]. exists e'. split; [apply elem_of_app; by left|done].
      - intros e' [He'| ->%list_elem_of_singleton]%elem_of_app.
        + by apply Hmin.
        + exists x. split; [done|lia]. }
    destruct (Z.ltb_spec (instantOf e) (instantOf x)) as [Hlt|Hge].
    { split; cbn.
      - intros k c Hk. destruct (decide (serial e = k)) as [<-|Hk'].
        + rewrite lookup_insert_eq in Hk. injection Hk as <-.
          split; [done|]. exists e. split; [apply elem_of_app; right; by apply list_elem_of_singleton|done].
        + rewrite lookup_insert_ne in Hk by done.
          pose proof (Hin k c Hk) as [? [e' [? ?]]].
          split; [done|]. exists e'. split; [apply elem_of_app; by left|done].
      - intros e' [He'| ->%list_elem_of_singleton]%elem_of_app.
        + destruct (decide (serial e = serial e')) as [Hs|Hs].
          * exists (clearExtensions e). rewrite <- Hs, lookup_insert_eq.
            split; [done|]. rewrite instant_clear.
            destruct (Hmin e' He') as [c [Hc Hle]].
            rewrite <- Hs, Hx in Hc. injection Hc as <-. lia.
          * destruct (Hmin e' He') as [c [Hc Hle]]. exists c.
            by rewrite lookup_insert_ne.
        + exists (clearExtensions e). rewrite lookup_insert_eq.
          split; [done|]. rewrite instant_clear. lia. }
    split; cbn.
    + intros k c Hk. pose proof (Hin k c Hk) as [? [e' [? ?]]].
      split; [done|]. exists e'. split; [apply elem_of_app; by left|done].
    + intros e' [He'| ->%list_elem_of_singleton]%elem_of_app.
      * by apply Hmin.
      * exists x. split; [done|lia].
  - split; cbn.
    + intros k c Hk. destruct (decide (serial e = k)) as [<-|Hk'].
      * rewrite lookup_insert_eq in Hk. injection Hk as <-.
        split; [done|]. exists e. split; [apply elem_of_app; right; by apply list_elem_of_singleton|done].
      * rewrite lookup_insert_ne in Hk by done.
        pose proof (Hin k c Hk) as [? [e' [? ?]]].
        split; [done|]. exists e'. split; [apply elem_of_app; by left|done].
    + intros e' [He'| ->%list_elem_of_singleton]%elem_of_app.
      * destruct (decide (serial e = serial e')) as [Hs|Hs].
        { destruct (Hmin e' He') as [c [Hc _]]. rewrite <- Hs, Hx in Hc. done. }
        destruct (Hmin e' He') as [c [Hc Hle]]. exists c.
        by rewrite lookup_insert_ne.
      * exists (clearExtensions e). rewrite lookup_insert_eq.
        split; [done|]. rewrite instant_clear. lia.
Qed.

Lemma Sound_fold l : forall seen st,
  Sound seen st -> Sound (seen ++ l) (fold_left step l st).
Proof.
  induction l as [|e l IH]; intros seen st H; cbn.
  - by rewrite app_nil_r.
  - replace (seen ++ e :: l) with ((seen ++ [e]) ++ l) by by rewrite <- app_assoc.
    apply IH. by apply Sound_step.
Qed.

Lemma Sound_mergeCrls crls :
  Sound (entriesOf crls) (mergeCrls key (∅, []) crls).
Proof.
  rewrite mergeCrls_entries.
  apply (Sound_fold (entriesOf crls) [] (∅, [])), Sound_start.
Qed.

(** *** The entries handed back *)

Lemma revoked_certs_spec (order : RangeOrder) crls :
  getAllRevokedCerts key order crls =
    (map snd (order (map_to_list (mergeCrls key (∅, []) crls).1)),
     (mergeCrls key (∅, []) crls).2, None).
Proof. unfold getAllRevokedCerts. by destruct (mergeCrls key (∅, []) crls). Qed.

Lemma elem_of_ranged (order : RangeOrder) (m : gmap string RevokedCertificate) k c :
  (k, c) ∈ order (map_to_list m) <-> m !! k = Some c.
Proof. rewrite (visit_perm order). apply elem_of_map_to_list. Qed.

Lemma elem_of_output (order : RangeOrder) (m : gmap string RevokedCertificate) c :
  c ∈ map snd (order (map_to_list m)) <-> exists k, m !! k = Some c.
Proof.
  change (map snd (order (map_to_list m))) with (snd <$> order (map_to_list m)).
  rewrite list_elem_of_fmap. split.
  - intros [[k c'] [-> H]]. exists k. by apply (elem_of_ranged order).
  - intros [k H]. exists (k, c). split; [done|]. by apply elem_of_ranged.
Qed.

Lemma output_serials (order : RangeOrder) (m : gmap string RevokedCertificate) :
  (forall k c, m !! k = Some c -> serial c = k) ->
  map serial (map snd (order (map_to_list m))) = map fst (order (map_to_list m)).
Proof.
  intros Hkeys.
  assert (Hall : forall p, p ∈ order (map_to_list m) -> serial p.2 = p.1).
  { intros [k c] H. apply (Hkeys k c). by apply (elem_of_ranged order). }
  induction (order (map_to_list m)) as [|p l IH]; [done|].
  cbn. rewrite (Hall p) by left. f_equal. apply IH.
  intros q Hq. apply Hall. by right.
Qed.

Lemma output_NoDup (order : RangeOrder) (m : gmap string RevokedCertificate) :
  (forall k c, m !! k = Some c -> serial c = k) ->
  NoDup (map serial (map snd (order (map_to_list m)))).
Proof.
  intros Hkeys. rewrite output_serials by done.
  change (NoDup (fst <$> order (map_to_list m))).
  rewrite (visit_perm order). apply NoDup_fst_map_to_list.
Qed.

Lemma NoDup_of_map {A B} (f : A -> B) (l : list A) : NoDup (map f l) -> NoDup l.
Proof. apply (NoDup_fmap_1 f). Qed.

Lemma only_one {A} (x : A) (l : list A) :
  NoDup l -> x ∈ l -> (forall y, y ∈ l -> y = x) -> l = [x].
Proof.
  intros Hnd Hx Hall. destruct l as [|a [|b l]].
  - by apply elem_of_nil in Hx.
  - f_equal. apply Hall. left.
  - exfalso. assert (a = b) as ->.
    { rewrite (Hall a), (Hall b); [done|right; left|left]. }
    apply NoDup_cons in Hnd as [Hnd _]. apply Hnd. left.
Qed.

(** The entries of the output that bear a given serial. *)
Lemma output_at (order : RangeOrder) (m : gmap string RevokedCertificate) k c :
  (forall k c, m !! k = Some c -> serial c = k) ->
  m !! k = Some c ->
  filter (fun x => serial x = k) (map snd (order (map_to_list m))) = [c].
Proof.
  intros Hkeys Hk. apply only_one.
  - apply NoDup_filter, (NoDup_of_map serial), output_NoDup, Hkeys.
  - apply list_elem_of_filter. split; [by apply (Hkeys k)|].
    apply elem_of_output. by exists k.
  - intros y [Hy [k' Hk']%elem_of_output]%list_elem_of_filter.
    apply Hkeys in Hk' as Hs. rewrite Hy in Hs. subst k'. congruence.
Qed.

(** C8. For every sequence of input lists, the entries handed back by
    [getAllRevokedCerts] bear pairwise different serials (as map keys,
    hence also as numbers); each of them is an input entry stripped of
    its extensions whose revocation time is not later than that of any
    input entry with the same serial; and every input serial is
    represented. *)
Theorem reconciled_set_unique_and_earliest (order : RangeOrder) crls :
  let certs := (getAllRevokedCerts key order crls).1.1 in
  NoDup (map serial certs) /\
  NoDup (map SerialNumber certs) /\
  (forall c, c ∈ certs -> exists e, e ∈ entriesOf crls /\ c = clearExtensions e) /\
  (forall c e, c ∈ certs -> e ∈ entriesOf crls -> serial e = serial c ->
               instantOf c <= instantOf e) /\
  (forall e, e ∈ entriesOf crls -> exists c, c ∈ certs /\ serial c = serial e).
Proof.
  rewrite revoked_certs_spec. cbn zeta. cbn [fst].
  destruct (Sound_mergeCrls crls) as [Hin Hmin].
  set (m := (mergeCrls key (∅, []) crls).1) in *.
  assert (Hkeys : forall k c, m !! k = Some c -> serial c = k).
  { intros k c H. by apply Hin. }
  assert (Hnd : NoDup (map serial (map snd (order (map_to_list m))))).
  { by apply output_NoDup. }
  split; [done|]. split.
  { rewrite <- (map_map SerialNumber key) in Hnd. by apply NoDup_of_map in Hnd. }
  split; [|split].
  - intros c [k Hk]%elem_of_output. by apply Hin in Hk as [_ ?].
  - intros c e [k Hk]%elem_of_output He Hs.
    destruct (Hmin e He) as [c' [Hc' Hle]].
    apply Hkeys in Hk as Hck. rewrite Hs, Hck, Hk in Hc'. by injection Hc' as <-.
  - intros e He. destruct (Hmin e He) as [c [Hc _]]. exists c. split.
    + apply elem_of_output. by exists (serial e).
    + by apply Hkeys.
Qed.

(** *** One serial at a time *)

(** What the state says about one serial: the stored entry and the
    warnings that name the serial. *)
Local Abbreviation warningsFor k :=
  (filter (fun w => w = duplicateWarning k)).

Lemma step_other k st e :
  serial e <> k ->
  (step st e).1 !! k = st.1 !! k /\ warningsFor k (step st e).2 = warningsFor k st.2.
Proof.
  intros Hne. destruct st as [m w]. unfold mergeCert. fold (serial e).
  assert (Hw : warningsFor k (w ++ [duplicateWarning (serial e)]) = warningsFor k w).
  { rewrite filter_app, filter_cons_False, filter_nil, app_nil_r; [done|].
    intros H%duplicateWarning_inj. done. }
  destruct (m !! serial e) as [x|]; cbn.
  - destruct (Time_Equal _ _); cbn; [done|].
    destruct (Time_After _ _); cbn; by rewrite ?lookup_insert_ne.
  - by rewrite lookup_insert_ne.
Qed.

Lemma fold_other k l : forall st,
  Forall (fun e => serial e <> k) l ->
  (fold_left step l st).1 !! k = st.1 !! k /\
  warningsFor k (fold_left step l st).2 = warningsFor k st.2.
Proof.
  induction l as [|e l IH]; intros st Hl; cbn; [done|].
  apply Forall_cons in Hl as [He Hl].
  destruct (IH (step st e) Hl) as [-> ->]. by apply step_other.
Qed.

Lemma step_first st e :
  st.1 !! serial e = None ->
  (step st e).1 !! serial e = Some (clearExtensions e) /\ (step st e).2 = st.2.
Proof.
  destruct st as [m w]. cbn. intros H. unfold mergeCert. fold (serial e).
  rewrite H. cbn. by rewrite lookup_insert_eq.
Qed.

Lemma step_conflict st e x :
  st.1 !! serial e = Some x ->
  instantOf x <> instantOf e ->
  (step st e).1 !! serial e =
    Some (if decide (instantOf e < instantOf x) then clearExtensions e else x) /\
  (step st e).2 = st.2 ++ [duplicateWarning (serial e)].
Proof.
  destruct st as [m w]. intros H Hne. cbn in H. rewrite step_unfold, H.
  rewrite decide_False by done. cbn. split; [|done].
  case_decide; [by rewrite lookup_insert_eq|done].
Qed.

(** Two lists that each list the serial once, merged in the order
    first, second. *)
Lemma merge_two_conflicting first second e1 e2 :
  RevokesOnce key first e1 -> RevokesOnce key second e2 ->
  serial e1 = serial e2 ->
  instantOf e1 <> instantOf e2 ->
  let st := mergeCrls key (∅, []) [first; second] in
  st.1 !! serial e1 =
    Some (clearExtensions (if decide (instantOf e2 < instantOf e1) then e2 else e1)) /\
  warningsFor (serial e1) st.2 = [duplicateWarning (serial e1)].
Proof.
  intros (a1 & a2 & Ha & [Ha1 Ha2]%Forall_app) (b1 & b2 & Hb & [Hb1 Hb2]%Forall_app) Hs Hne.
  rewrite <- Hs in Hb1, Hb2.
  cbn zeta. rewrite mergeCrls_entries. unfold entriesOf. cbn [map concat].
  rewrite Ha, Hb, app_nil_r, !fold_left_app. cbn [fold_left].
  set (s0 := fold_left step a1 (∅, [])).
  destruct (fold_other (serial e1) a1 (∅, []) Ha1) as [L0 W0]. fold s0 in L0, W0.
  cbn in L0, W0. rewrite lookup_empty in L0.
  destruct (step_first s0 e1 L0) as [L1 W1].
  set (s1 := step s0 e1) in *.
  destruct (fold_other (serial e1) a2 s1 Ha2) as [L2 W2].
  set (s2 := fold_left step a2 s1) in *.
  destruct (fold_other (serial e1) b1 s2 Hb1) as [L3 W3].
  set (s3 := fold_left step b1 s2) in *.
  assert (L3' : s3.1 !! serial e2 = Some (clearExtensions e1)) by (rewrite <- Hs; congruence).
  destruct (step_conflict s3 e2 _ L3') as [L4 W4]; [by rewrite instant_clear|].
  set (s4 := step s3 e2) in *.
  destruct (fold_other (serial e1) b2 s4 Hb2) as [L5 W5].
  rewrite L5, W5, W4, filter_app, W3, W2, W1, W0, Hs, L4.
  rewrite filter_cons_True by done. rewrite instant_clear. split; [|done].
  by destruct (decide _).
Qed.

(** C1. Two lists each revoke the same serial once, at different
    instants [T1 < T2]: whichever list comes first, exactly one of the
    entries handed back bears that serial, it carries the revocation
    time [T1], and exactly one warning names the serial. *)
Theorem conflicting_pair_keeps_earlier (order : RangeOrder) crlA crlB e1 e2 crls :
  RevokesOnce key crlA e1 ->
  RevokesOnce key crlB e2 ->
  serial e1 = serial e2 ->
  instantOf e1 < instantOf e2 ->
  crls = [crlA; crlB] \/ crls = [crlB; crlA] ->
  let '(certs, warnings, err) := getAllRevokedCerts key order crls in
  err = None /\
  (exists kept, filter (fun c => serial c = serial e1) certs = [kept] /\
                kept = clearExtensions e1 /\
                RevocationTime kept = RevocationTime e1) /\
  filter (fun w => w = duplicateWarning (serial e1)) warnings =
    [duplicateWarning (serial e1)].
Proof.
  intros HA HB Hs Hlt Hcrls. rewrite revoked_certs_spec.
  split; [done|].
  assert (Hst : (mergeCrls key (∅, []) crls).1 !! serial e1 = Some (clearExtensions e1) /\
                warningsFor (serial e1) (mergeCrls key (∅, []) crls).2 =
                  [duplicateWarning (serial e1)]).
  { destruct Hcrls as [-> | ->].
    - destruct (merge_two_conflicting crlA crlB e1 e2) as [L W]; [done..|lia|].
      rewrite decide_False in L by lia. done.
    - destruct (merge_two_conflicting crlB crlA e2 e1) as [L W]; [done..|lia|].
      rewrite decide_True in L by lia. rewrite <- Hs in L, W. done. }
  destruct Hst as [L W]. split; [|done].
  exists (clearExtensions e1). split; [|done].
  apply output_at; [|done].
  intros k c H. by apply (Sound_mergeCrls crls).
Qed.

(** *** A list that was merged before *)

Lemma entriesOf_app l l' : entriesOf (l ++ l') = entriesOf l ++ entriesOf l'.
Proof. unfold entriesOf. by rewrite map_app, concat_app. Qed.

Lemma entriesOf_cons crl l : entriesOf (crl :: l) = RevokedCertificates crl ++ entriesOf l.
Proof. done. Qed.

(** The map evolves independently of the warnings, which only grow. *)
Lemma step_split m w e :
  step (m, w) e = ((step (m, []) e).1, w ++ (step (m, []) e).2).
Proof.
  rewrite !step_unfold. destruct (m !! serial e) as [x|]; cbn.
  - destruct (decide _); cbn; by rewrite ?app_nil_r.
  - by rewrite app_nil_r.
Qed.

Lemma fold_split l : forall m w,
  fold_left step l (m, w) =
    ((fold_left step l (m, [])).1, w ++ (fold_left step l (m, [])).2).
Proof.
  induction l as [|e l IH]; intros m w; cbn [fold_left].
  - cbn. by rewrite app_nil_r.
  - rewrite step_split. destruct (step (m, []) e) as [m1 w1]. cbn [fst snd].
    rewrite (IH m1 (w ++ w1)), (IH m1 w1). cbn [fst snd]. by rewrite app_assoc.
Qed.

Lemma fold_covered l : forall m w,
  (forall e, e ∈ l -> exists x, m !! serial e = Some x /\ instantOf x <= instantOf e) ->
  (fold_left step l (m, w)).1 = m.
Proof.
  induction l as [|e l IH]; intros m w H; cbn [fold_left]; [done|].
  destruct (H e) as [x [Hx Hle]]; [left|].
  rewrite step_unfold, Hx.
  destruct (decide _); [|rewrite decide_False by lia]; apply IH;
    intros e' He'; apply H; by right.
Qed.

Lemma fold_silent l : forall m,
  (forall e, e ∈ l -> exists x, m !! serial e = Some x /\ instantOf x <= instantOf e) ->
  (fold_left step l (m, [])).2 = [] <->
  (forall e, e ∈ l -> exists x, m !! serial e = Some x /\ instantOf x = instantOf e).
Proof.
  induction l as [|e l IH]; intros m Hcov; cbn [fold_left].
  - split; [|done]. intros _ e He. by apply elem_of_nil in He.
  - destruct (Hcov e) as [x [Hx Hle]]; [left|].
    assert (Hrest : forall e', e' ∈ l ->
              exists x', m !! serial e' = Some x' /\ instantOf x' <= instantOf e')
      by (intros e' He'; apply Hcov; by right).
    rewrite step_unfold, Hx. destruct (decide (instantOf x = instantOf e)) as [Heq|Hne].
    + rewrite (IH m Hrest). split.
      * intros H e' [->|He']%elem_of_cons; [by exists x|by apply H].
      * intros H e' He'. apply H. by right.
    + rewrite decide_False by lia. rewrite fold_split. cbn [snd app]. split; [done|].
      intros H. destruct (H e) as [x' [Hx' Heq]]; [left|]. congruence.
Qed.

Lemma elem_of_entriesOf e crl l :
  e ∈ RevokedCertificates crl -> crl ∈ l -> e ∈ entriesOf l.
Proof.
  intros He Hcrl. unfold entriesOf. apply list_elem_of_In, in_concat.
  exists (RevokedCertificates crl). split.
  - by apply in_map, list_elem_of_In.
  - by apply list_elem_of_In.
Qed.

Lemma absorbed_map pre c l3 :
  c ∈ pre ->
  (mergeCrls key (∅, []) (pre ++ c :: l3)).1 = (mergeCrls key (∅, []) (pre ++ l3)).1.
Proof.
  intros Hc. rewrite !mergeCrls_entries, !entriesOf_app, entriesOf_cons, !fold_left_app.
  pose proof (Sound_fold (entriesOf pre) [] (∅, []) Sound_start) as [_ Hmin].
  cbn [app] in Hmin.
  destruct (fold_left step (entriesOf pre) (∅, [])) as [m w] eqn:Hst.
  cbn [fst] in Hmin.
  rewrite (fold_split (RevokedCertificates c)).
  rewrite (fold_covered (RevokedCertificates c) m []).
  - rewrite (fold_split (entriesOf l3) m (w ++ _)), (fold_split (entriesOf l3) m w). done.
  - intros e He. apply Hmin. by apply (elem_of_entriesOf e c).
Qed.

Lemma stored_is_none_earlier pre c m w :
  c ∈ pre ->
  fold_left step (entriesOf pre) (∅, []) = (m, w) ->
  (forall e, e ∈ RevokedCertificates c ->
     exists x, m !! serial e = Some x /\ instantOf x = instantOf e) <->
  NoneEarlier key c pre.
Proof.
  intros Hc Hst.
  pose proof (Sound_fold (entriesOf pre) [] (∅, []) Sound_start) as [Hin Hmin].
  rewrite Hst in Hin, Hmin. cbn [app fst] in Hin, Hmin.
  unfold NoneEarlier. rewrite Forall_forall. split.
  - intros Hsame e He. rewrite Forall_forall. intros seen Hseen Hserial.
    destruct (Hsame e He) as [x [Hx Heq]].
    destruct (Hmin seen Hseen) as [x' [Hx' Hle]].
    rewrite Hserial, Hx in Hx'. injection Hx' as <-. lia.
  - intros Hnone e He.
    destruct (Hmin e) as [x [Hx Hle]]; [by apply (elem_of_entriesOf e c)|].
    exists x. split; [done|].
    destruct (Hin _ _ Hx) as [Hsx [e' [He' ->]]].
    specialize (Hnone e He). rewrite Forall_forall in Hnone.
    specialize (Hnone e' He' Hsx). rewrite instant_clear in Hle |- *. lia.
Qed.

Lemma second_occurrence pre c l3 :
  c ∈ pre ->
  exists before added after,
    (mergeCrls key (∅, []) (pre ++ c :: l3)).2 = before ++ added ++ after /\
    (mergeCrls key (∅, []) (pre ++ l3)).2 = before ++ after /\
    (added = [] <-> NoneEarlier key c pre).
Proof.
  intros Hc.
  rewrite !mergeCrls_entries, !entriesOf_app, entriesOf_cons, !fold_left_app.
  pose proof (Sound_fold (entriesOf pre) [] (∅, []) Sound_start) as [_ Hmin].
  cbn [app] in Hmin.
  destruct (fold_left step (entriesOf pre) (∅, [])) as [m w] eqn:Hst.
  cbn [fst] in Hmin.
  assert (Hcov : forall e, e ∈ RevokedCertificates c ->
            exists x, m !! serial e = Some x /\ instantOf x <= instantOf e)
    by (intros e He; apply Hmin; by apply (elem_of_entriesOf e c)).
  exists w, (fold_left step (RevokedCertificates c) (m, [])).2,
         (fold_left step (entriesOf l3) (m, [])).2.
  rewrite (fold_split (RevokedCertificates c)).
  rewrite (fold_covered (RevokedCertificates c) m [] Hcov).
  rewrite (fold_split (entriesOf l3) m (w ++ _)), (fold_split (entriesOf l3) m w).
  cbn [snd]. rewrite <- app_assoc. do 2 (split; [done|]).
  rewrite (fold_silent _ m Hcov). by apply stored_is_none_earlier with w.
Qed.

Lemma inserted_nothing (before added after : list string) :
  before ++ added ++ after = before ++ after <-> added = [].
Proof.
  split; [|by intros ->].
  intros H%app_inv_head. apply (f_equal length) in H. rewrite length_app in H.
  destruct added; [done|cbn in H; lia].
Qed.

Lemma twice_as_absorbed (l1 : list RevocationList) c l2 l3 :
  l1 ++ c :: l2 ++ c :: l3 = (l1 ++ c :: l2) ++ c :: l3 /\
  l1 ++ c :: l2 ++ l3 = (l1 ++ c :: l2) ++ l3 /\
  c ∈ l1 ++ c :: l2.
Proof. rewrite <- !app_assoc. repeat split. set_solver. Qed.

(** C5 (amended). A list that occurs a second time among the input
    lists never changes the reconciled set: the stored entries, and so
    the entries handed back up to their order, are those obtained with
    the second occurrence left out.  The second occurrence adds no
    warning exactly when no entry merged before it bears a serial of
    the list with an earlier revocation time; an earlier entry that is
    later, or equal, keeps it silent. *)
Theorem repeated_crl_is_absorbed (order order' : RangeOrder) l1 c l2 l3 :
  let twice := l1 ++ c :: l2 ++ c :: l3 in
  let once := l1 ++ c :: l2 ++ l3 in
  (mergeCrls key (∅, []) twice).1 = (mergeCrls key (∅, []) once).1 /\
  (getAllRevokedCerts key order twice).1.1 ≡ₚ (getAllRevokedCerts key order' once).1.1 /\
  (NoneEarlier key c (l1 ++ c :: l2) <->
   (getAllRevokedCerts key order twice).1.2 = (getAllRevokedCerts key order' once).1.2).
Proof.
  cbn zeta. rewrite !revoked_certs_spec. cbn [fst snd].
  destruct (twice_as_absorbed l1 c l2 l3) as (-> & -> & Hc).
  split; [by apply absorbed_map|]. split.
  - rewrite absorbed_map by done.
    set (m := (mergeCrls key (∅, []) ((l1 ++ c :: l2) ++ l3)).1).
    change (snd <$> order (map_to_list m) ≡ₚ snd <$> order' (map_to_list m)).
    by rewrite (visit_perm order), (visit_perm order').
  - destruct (second_occurrence (l1 ++ c :: l2) c l3 Hc)
      as (before & added & after & -> & -> & <-).
    by rewrite inserted_nothing.
Qed.

(** *** Further facts about the reconciled set *)

Lemma mergeCrls_output_lookup (order : RangeOrder) crls c :
  c ∈ (getAllRevokedCerts key order crls).1.1 <->
  exists k, (mergeCrls key (∅, []) crls).1 !! k = Some c.
Proof. rewrite revoked_certs_spec. apply elem_of_output. Qed.

(** X13. Every entry handed back has lost its extensions, whatever the
    input entries carried. *)
Theorem returned_entries_have_no_extensions (order : RangeOrder) crls :
  Forall (fun c => Extensions c = []) (getAllRevokedCerts key order crls).1.1.
Proof.
  apply Forall_forall. intros c [k Hk]%mergeCrls_output_lookup.
  destruct (Sound_mergeCrls crls) as [Hin _].
  by destruct (Hin k c Hk) as [_ [e [_ ->]]].
Qed.

Lemma size_step st e :
  (size (step st e).1 + length (step st e).2 <= S (size st.1 + length st.2))%nat.
Proof.
  destruct st as [m w]. rewrite step_unfold.
  destruct (m !! serial e) as [x|] eqn:Hx; cbn [fst snd].
  - destruct (decide _); cbn [fst snd]; [lia|].
    rewrite length_app. cbn [length].
    destruct (decide _); [|lia].
    rewrite map_size_insert_Some by by exists x. lia.
  - rewrite map_size_insert_None by done. lia.
Qed.

Lemma size_fold l : forall st,
  (size (fold_left step l st).1 + length (fold_left step l st).2
   <= length l + (size st.1 + length st.2))%nat.
Proof.
  induction l as [|e l IH]; intros st; cbn [fold_left length]; [lia|].
  pose proof (IH (step st e)). pose proof (size_step st e). lia.
Qed.

Lemma output_length (order : RangeOrder) (m : gmap string RevokedCertificate) :
  length (map snd (order (map_to_list m))) = size m.
Proof.
  rewrite length_map, (Permutation_length (visit_perm order _)).
  apply length_map_to_list.
Qed.

(** X14. Each input entry is accounted for at most once: it either adds
    an entry to the result or at most one warning, so the entries handed
    back and the warnings together never outnumber the input entries;
    and the result is empty only when the input lists hold no entry. *)
Theorem entries_and_warnings_bounded (order : RangeOrder) crls :
  let r := getAllRevokedCerts key order crls in
  (length r.1.1 + length r.1.2 <= length (entriesOf crls))%nat /\
  (r.1.1 = [] <-> entriesOf crls = []).
Proof.
  cbn zeta. rewrite revoked_certs_spec. cbn [fst snd]. split.
  - rewrite output_length, mergeCrls_entries.
    pose proof (size_fold (entriesOf crls) (∅, [])) as H.
    cbn [fst snd length] in H. rewrite map_size_empty in H. lia.
  - destruct (Sound_mergeCrls crls) as [Hin Hmin]. split.
    + intros Hnil. destruct (entriesOf crls) as [|e l] eqn:He; [done|].
      destruct (Hmin e) as [c [Hc _]]; [left|].
      assert (Hout : c ∈ map snd (order (map_to_list (mergeCrls key (∅, []) crls).1))).
      { apply elem_of_output. by exists (serial e). }
      rewrite Hnil in Hout. by apply elem_of_nil in Hout.
    + intros Hnil. rewrite mergeCrls_entries, Hnil. cbn.
      rewrite map_to_list_empty.
      by rewrite (proj1 (Permutation_nil_r _) (visit_perm order [])).
Qed.

(** A warning is only ever issued for a serial that two input entries
    bear with different revocation instants. *)
Lemma warnings_justified_fold l : forall seen st,
  Sound seen st ->
  (forall w, w ∈ st.2 -> exists e e', e ∈ seen /\ e' ∈ seen /\ serial e = serial e' /\
                                      instantOf e <> instantOf e' /\
                                      w = duplicateWarning (serial e)) ->
  forall w, w ∈ (fold_left step l st).2 ->
    exists e e', e ∈ seen ++ l /\ e' ∈ seen ++ l /\ serial e = serial e' /\
                 instantOf e <> instantOf e' /\ w = duplicateWarning (serial e).
Proof.
  induction l as [|e l IH]; intros seen st Hsound Hw w Hin; cbn [fold_left] in Hin.
  - rewrite app_nil_r. by apply Hw.
  - replace (seen ++ e :: l) with ((seen ++ [e]) ++ l) by by rewrite <- app_assoc.
    apply (IH (seen ++ [e]) (step st e)); [by apply Sound_step| |done].
    clear w Hin. intros w Hin. destruct st as [m ws]. rewrite step_unfold in Hin.
    assert (Hold : w ∈ ws -> exists e0 e', e0 ∈ seen ++ [e] /\ e' ∈ seen ++ [e] /\
              serial e0 = serial e' /\ instantOf e0 <> instantOf e' /\
              w = duplicateWarning (serial e0)).
    { intros Hws. destruct (Hw w Hws) as (e0 & e' & ? & ? & ? & ? & ?).
      exists e0, e'. repeat split; try done; apply elem_of_app; by left. }
    destruct (m !! serial e) as [x|] eqn:Hx; cbn [snd] in Hin; [|by apply Hold].
    destruct (decide (instantOf x = instantOf e)) as [|Hne]; cbn [snd] in Hin;
      [by apply Hold|].
    apply elem_of_app in Hin as [Hin| ->%list_elem_of_singleton]; [by apply Hold|].
    destruct (stored_from_input key _ _ Hsound _ _ Hx) as [Hsx [e0 [He0 ->]]].
    exists e, e0. repeat split.
    + apply elem_of_app. right. by apply list_elem_of_singleton.
    + apply elem_of_app. by left.
    + done.
    + rewrite instant_clear in Hne. congruence.
Qed.

(** Until a warning names a serial, all entries seen with that serial
    carry the instant of the stored one. *)
Lemma conflicts_warned_fold l : forall seen st,
  Sound seen st ->
  (forall k, duplicateWarning k ∈ st.2 \/
             forall e, e ∈ seen -> serial e = k ->
                       exists x, st.1 !! k = Some x /\ instantOf x = instantOf e) ->
  forall k, duplicateWarning k ∈ (fold_left step l st).2 \/
            forall e, e ∈ seen ++ l -> serial e = k ->
                      exists x, (fold_left step l st).1 !! k = Some x /\
                                instantOf x = instantOf e.
Proof.
  induction l as [|e l IH]; intros seen st Hsound Hinv k; cbn [fold_left].
  - rewrite app_nil_r. apply Hinv.
  - replace (seen ++ e :: l) with ((seen ++ [e]) ++ l) by by rewrite <- app_assoc.
    apply (IH (seen ++ [e]) (step st e)); [by apply Sound_step|].
    clear k. intros k. destruct st as [m ws]. rewrite step_unfold.
    destruct (Hinv k) as [Hw|Hsame].
    { left. destruct (m !! serial e) as [x|]; cbn [snd]; [|done].
      destruct (decide _); cbn [snd]; [done|]. apply elem_of_app. by left. }
    cbn [fst snd] in Hsame.
    destruct (decide (serial e = k)) as [<-|Hk].
    + destruct (m !! serial e) as [x|] eqn:Hx.
      * destruct (decide (instantOf x = instantOf e)) as [Heq|Hne]; cbn [fst snd].
        -- right. intros e' [He'| ->%list_elem_of_singleton]%elem_of_app Hs.
           ++ rewrite Hx. by apply Hsame.
           ++ by exists x.
        -- left. apply elem_of_app. right. by apply list_elem_of_singleton.
      * right. cbn [fst snd].
        intros e' [He'| ->%list_elem_of_singleton]%elem_of_app Hs.
        -- destruct (Hsame e' He' Hs) as [x [Hx' _]]. congruence.
        -- exists (clearExtensions e). by rewrite lookup_insert_eq.
    + right. intros e' [He'| ->%list_elem_of_singleton]%elem_of_app Hs; [|done].
      destruct (Hsame e' He' Hs) as [x [Hx' Hi]]. exists x. split; [|done].
      destruct (m !! serial e) as [y|]; cbn [fst].
      * destruct (decide _); cbn [fst]; [done|].
        destruct (decide _); [by rewrite lookup_insert_ne|done].
      * by rewrite lookup_insert_ne.
Qed.

(** X10. Warnings and conflicts coincide: every warning names a serial
    that two input entries bear with different revocation instants, and
    every serial revoked at two different instants is named by a
    warning. *)
Theorem warnings_name_exactly_the_conflicts (order : RangeOrder) crls :
  let warnings := (getAllRevokedCerts key order crls).1.2 in
  (forall w, w ∈ warnings ->
     exists e e', e ∈ entriesOf crls /\ e' ∈ entriesOf crls /\ serial e = serial e' /\
                  instantOf e <> instantOf e' /\ w = duplicateWarning (serial e)) /\
  (forall e e', e ∈ entriesOf crls -> e' ∈ entriesOf crls -> serial e = serial e' ->
                instantOf e <> instantOf e' -> duplicateWarning (serial e) ∈ warnings).
Proof.
  cbn zeta. rewrite revoked_certs_spec. cbn [fst snd]. rewrite mergeCrls_entries. split.
  - intros w Hw.
    apply (warnings_justified_fold (entriesOf crls) [] (∅, []) Sound_start); [|done].
    intros w' Hw'. by apply elem_of_nil in Hw'.
  - intros e e' He He' Hs Hne.
    destruct (conflicts_warned_fold (entriesOf crls) [] (∅, []) Sound_start) with (k := serial e)
      as [Hw|Hsame]; [|done|].
    + intros k. right. intros e0 He0. by apply elem_of_nil in He0.
    + cbn [app] in Hsame.
      destruct (Hsame e He eq_refl) as [x [Hx Hi]].
      destruct (Hsame e' He' (eq_sym Hs)) as [x' [Hx' Hi']].
      congruence.
Qed.

(** X15. Merging further lists after the given ones never loses a serial
    and never moves its revocation time to a later instant, and the
    warnings issued so far stay, in order, at the head of the list. *)
Theorem more_lists_only_refine (order order' : RangeOrder) crls more :
  let before := getAllRevokedCerts key order crls in
  let after := getAllRevokedCerts key order' (crls ++ more) in
  (forall c, c ∈ before.1.1 ->
     exists c', c' ∈ after.1.1 /\ serial c' = serial c /\ instantOf c' <= instantOf c) /\
  (exists added, after.1.2 = before.1.2 ++ added).
Proof.
  cbn zeta. rewrite !revoked_certs_spec. cbn [fst snd]. split.
  - intros c [k Hk]%elem_of_output.
    destruct (Sound_mergeCrls crls) as [Hin _].
    destruct (Hin k c Hk) as [Hs [e [He ->]]].
    destruct (Sound_mergeCrls (crls ++ more)) as [Hin' Hmin'].
    destruct (Hmin' e) as [c' [Hc' Hle]].
    { rewrite entriesOf_app. apply elem_of_app. by left. }
    exists c'. split; [|split].
    + apply elem_of_output. by exists (serial e).
    + by apply Hin' in Hc' as [-> _].
    + by rewrite instant_clear.
  - assert (Happ : mergeCrls key (∅, []) (crls ++ more) =
                    mergeCrls key (mergeCrls key (∅, []) crls) more).
    { unfold mergeCrls. apply fold_left_app. }
    rewrite Happ. destruct (mergeCrls key (∅, []) crls) as [m w].
    rewrite mergeCrls_entries, fold_split. cbn [snd]. by eexists.
Qed.

(** The stored instants only depend on which entries were merged. *)
Lemma same_entries_same_instants crls crls' k x :
  (forall e, e ∈ entriesOf crls -> e ∈ entriesOf crls') ->
  (mergeCrls key (∅, []) crls).1 !! k = Some x ->
  exists x', (mergeCrls key (∅, []) crls').1 !! k = Some x' /\ instantOf x' <= instantOf x.
Proof.
  intros Hsub Hx.
  destruct (Sound_mergeCrls crls) as [Hin _].
  destruct (Hin k x Hx) as [Hs [e [He ->]]].
  destruct (Sound_mergeCrls crls') as [_ Hmin'].
  destruct (Hmin' e (Hsub e He)) as [x' [Hx' Hle]].
  exists x'. rewrite serial_clear in Hs. rewrite <- Hs. by rewrite instant_clear.
Qed.

Lemma entriesOf_Permutation crls crls' :
  crls ≡ₚ crls' -> entriesOf crls ≡ₚ entriesOf crls'.
Proof.
  induction 1 as [|c l l' _ IH|c d l|l l' l'' _ IH1 _ IH2].
  - done.
  - rewrite !entriesOf_cons. by rewrite IH.
  - rewrite !entriesOf_cons, !app_assoc. f_equiv. apply Permutation_app_comm.
  - by rewrite IH1.
Qed.

(** X11. The order in which the lists are supplied does not change which
    serials are handed back nor the revocation instant kept for each of
    them. *)
Theorem winners_independent_of_list_order (order order' : RangeOrder) crls crls' :
  crls ≡ₚ crls' ->
  map (fun c => (serial c, instantOf c)) (getAllRevokedCerts key order crls).1.1 ≡ₚ
  map (fun c => (serial c, instantOf c)) (getAllRevokedCerts key order' crls').1.1.
Proof.
  intros Hperm%entriesOf_Permutation. rewrite !revoked_certs_spec. cbn [fst].
  set (m := (mergeCrls key (∅, []) crls).1).
  set (m' := (mergeCrls key (∅, []) crls').1).
  assert (Hkeys : forall k c, m !! k = Some c -> serial c = k).
  { intros k c H. by apply (Sound_mergeCrls crls). }
  assert (Hkeys' : forall k c, m' !! k = Some c -> serial c = k).
  { intros k c H. by apply (Sound_mergeCrls crls'). }
  assert (Hsame : forall k x, m !! k = Some x ->
            exists x', m' !! k = Some x' /\ instantOf x' = instantOf x).
  { intros k x Hx.
    destruct (same_entries_same_instants crls crls' k x) as [x' [Hx' Hle]]; [|done|].
    { intros e He. by rewrite <- Hperm. }
    destruct (same_entries_same_instants crls' crls k x') as [y [Hy Hle']]; [|done|].
    { intros e He. by rewrite Hperm. }
    exists x'. split; [done|]. fold m in Hy. assert (y = x) by congruence. subst y. lia. }
  assert (Hsame' : forall k x, m' !! k = Some x ->
            exists x', m !! k = Some x' /\ instantOf x' = instantOf x).
  { intros k x Hx.
    destruct (same_entries_same_instants crls' crls k x) as [x' [Hx' Hle]]; [|done|].
    { intros e He. by rewrite Hperm. }
    destruct (same_entries_same_instants crls crls' k x') as [y [Hy Hle']]; [|done|].
    { intros e He. by rewrite <- Hperm. }
    exists x'. split; [done|]. fold m' in Hy. assert (y = x) by congruence. subst y. lia. }
  assert (Hnd : forall (o : RangeOrder) (n : gmap string RevokedCertificate),
            (forall k c, n !! k = Some c -> serial c = k) ->
            NoDup (map (fun c => (serial c, instantOf c)) (map snd (o (map_to_list n))))).
  { intros o n Hn. apply (NoDup_fmap_1 fst).
    change (NoDup (map fst (map (fun c => (serial c, instantOf c)) (map snd (o (map_to_list n)))))).
    rewrite map_map. cbn [fst]. by apply output_NoDup. }
  apply NoDup_Permutation; [by apply Hnd|by apply Hnd|].
  intros [k t]. split.
  - intros Hin. apply list_elem_of_In, in_map_iff in Hin as [c [[= <- <-] Hc]].
    apply list_elem_of_In, elem_of_output in Hc as [k Hk].
    destruct (Hsame k c Hk) as [c' [Hc' Hi]].
    apply list_elem_of_In, in_map_iff. exists c'. split.
    + rewrite Hi. f_equal. rewrite (Hkeys' _ _ Hc'). symmetry. by apply Hkeys.
    + apply list_elem_of_In, elem_of_output. by exists k.
  - intros Hin. apply list_elem_of_In, in_map_iff in Hin as [c [[= <- <-] Hc]].
    apply list_elem_of_In, elem_of_output in Hc as [k Hk].
    destruct (Hsame' k c Hk) as [c' [Hc' Hi]].
    apply list_elem_of_In, in_map_iff. exists c'. split.
    + rewrite Hi. f_equal. rewrite (Hkeys _ _ Hc'). symmetry. by apply Hkeys'.
    + apply list_elem_of_In, elem_of_output. by exists k.
Qed.

(** Entries with fresh, pairwise different serials are all stored. *)
Lemma fold_fresh l : forall (m : gmap string RevokedCertificate) w,
  NoDup (map serial l) ->
  (forall e, e ∈ l -> m !! serial e = None) ->
  (fold_left step l (m, w)).2 = w /\
  map_to_list (fold_left step l (m, w)).1 ≡ₚ
    map_to_list m ++ map (fun e => (serial e, clearExtensions e)) l.
Proof.
  induction l as [|e l IH]; intros m w Hnd Hfresh; cbn [fold_left map].
  - by rewrite app_nil_r.
  - apply NoDup_cons in Hnd as [Hnotin Hnd].
    rewrite step_unfold, (Hfresh e) by left.
    destruct (IH (<[serial e := clearExtensions e]> m) w Hnd) as [-> Hp].
    + intros e' He'. rewrite lookup_insert_ne; [apply Hfresh; by right|].
      intros Heq. apply Hnotin. rewrite Heq.
      by apply (list_elem_of_fmap_2 serial).
    + split; [done|]. rewrite Hp.
      rewrite map_to_list_insert by (apply Hfresh; left).
      by rewrite <- Permutation_middle.
Qed.

(** X12. When no serial occurs twice among the input entries, every one
    of them is handed back, stripped of its extensions, and no warning
    is issued. *)
Theorem distinct_serials_pass_through (order : RangeOrder) crls :
  NoDup (map serial (entriesOf crls)) ->
  (getAllRevokedCerts key order crls).1.1 ≡ₚ map clearExtensions (entriesOf crls) /\
  (getAllRevokedCerts key order crls).1.2 = [].
Proof.
  intros Hnd. rewrite revoked_certs_spec. cbn [fst snd]. rewrite mergeCrls_entries.
  destruct (fold_fresh (entriesOf crls) ∅ [] Hnd) as [Hw Hp].
  { intros e _. apply lookup_empty. }
  split; [|done].
  change (snd <$> order (map_to_list (fold_left step (entriesOf crls) (∅, [])).1)
          ≡ₚ map clearExtensions (entriesOf crls)).
  rewrite (visit_perm order), Hp, map_to_list_empty. cbn [app].
  change (map snd (map (fun e => (serial e, clearExtensions e)) (entriesOf crls))
          ≡ₚ map clearExtensions (entriesOf crls)).
  by rewrite map_map.
Qed.

End ReconcilerFacts.

(** C1 on two lists that also revoke other serials, the later claim
    first, with the map ranged over backwards. *)
Lemma conflicting_pair_witness :
  let crlA := Double.crlOf [Double.revoked 7 1; Double.revoked 12345 10] in
  let crlB := Double.crlOf [Double.revoked 12345 20; Double.revoked 8 2] in
  let '(certs, warnings, err) :=
    getAllRevokedCerts Double.decimal reversedOrder [crlB; crlA] in
  err = None /\
  (exists kept,
     filter (fun c => serialOf Double.decimal c = "12345") certs = [kept] /\
     kept = clearExtensions (Double.revoked 12345 10) /\
     RevocationTime kept = {| unixNano := 10; location := "UTC" |}) /\
  filter (fun w => w = duplicateWarning "12345") warnings = [duplicateWarning "12345"].
Proof.
  apply (conflicting_pair_keeps_earlier Double.decimal reversedOrder
           (Double.crlOf [Double.revoked 7 1; Double.revoked 12345 10])
           (Double.crlOf [Double.revoked 12345 20; Double.revoked 8 2])
           (Double.revoked 12345 10) (Double.revoked 12345 20)).
  - exists [Double.revoked 7 1], []. split; [reflexivity|].
    repeat constructor. intros H. vm_compute in H. discriminate H.
  - exists [], [Double.revoked 8 2]. split; [reflexivity|].
    repeat constructor. intros H. vm_compute in H. discriminate H.
  - reflexivity.
  - vm_compute. reflexivity.
  - right. reflexivity.
Defined.

(** C5, as first stated, fails: the second occurrence of a list is not
    always silent.  Between its two occurrences another list may have
    moved the stored revocation time of a shared serial, and a list may
    disagree with itself. *)
Lemma repeated_crl_counterexample :
  let late := Double.crlOf [Double.revoked 12345 20] in
  let early := Double.crlOf [Double.revoked 12345 10] in
  let both := Double.crlOf [Double.revoked 12345 20; Double.revoked 12345 10] in
  let warningsOf crls := (getAllRevokedCerts Double.decimal insertionOrder crls).1.2 in
  warningsOf [late; early; late] = [duplicateWarning "12345"; duplicateWarning "12345"] /\
  warningsOf [late; early] = [duplicateWarning "12345"] /\
  warningsOf [late; early; late] <> warningsOf [late; early] /\
  warningsOf [both; both] = [duplicateWarning "12345"; duplicateWarning "12345"] /\
  warningsOf [both] = [duplicateWarning "12345"] /\
  warningsOf [both; both] <> warningsOf [both].
Proof. vm_compute. repeat split; discriminate. Qed.

(** C5 (amended) on a list repeated after one that revokes a shared
    serial later and another that revokes it at the same time. *)
Lemma repeated_crl_witness :
  NoneEarlier Double.decimal
    (Double.crlOf [Double.revoked 100 5; Double.revoked 200 9])
    [Double.crlOf [Double.revoked 100 8; Double.revoked 300 2];
     Double.crlOf [Double.revoked 100 5; Double.revoked 200 9];
     Double.crlOf [Double.revoked 100 5; Double.revoked 200 12]] /\
  (getAllRevokedCerts Double.decimal insertionOrder
     [Double.crlOf [Double.revoked 100 8; Double.revoked 300 2];
      Double.crlOf [Double.revoked 100 5; Double.revoked 200 9];
      Double.crlOf [Double.revoked 100 5; Double.revoked 200 12];
      Double.crlOf [Double.revoked 100 5; Double.revoked 200 9];
      Double.crlOf [Double.revoked 100 1]]).1.2 =
  (getAllRevokedCerts Double.decimal reversedOrder
     [Double.crlOf [Double.revoked 100 8; Double.revoked 300 2];
      Double.crlOf [Double.revoked 100 5; Double.revoked 200 9];
      Double.crlOf [Double.revoked 100 5; Double.revoked 200 12];
      Double.crlOf [Double.revoked 100 1]]).1.2.
Proof.
  assert (H : NoneEarlier Double.decimal
                (Double.crlOf [Double.revoked 100 5; Double.revoked 200 9])
                [Double.crlOf [Double.revoked 100 8; Double.revoked 300 2];
                 Double.crlOf [Double.revoked 100 5; Double.revoked 200 9];
                 Double.crlOf [Double.revoked 100 5; Double.revoked 200 12]]).
  { repeat constructor; intros H; vm_compute in H |- *; discriminate. }
  split; [exact H|].
  exact (proj1 (proj2 (proj2 (repeated_crl_is_absorbed Double.decimal
           insertionOrder reversedOrder
           [Double.crlOf [Double.revoked 100 8; Double.revoked 300 2]]
           (Double.crlOf [Double.revoked 100 5; Double.revoked 200 9])
           [Double.crlOf [Double.revoked 100 5; Double.revoked 200 12]]
           [Double.crlOf [Double.revoked 100 1]]))) H).
Defined.

(** ** The format token *)

Lemma lowerByte_letter (c d : ascii) :
  lowerByte c = d ->
  d = "p"%char \/ d = "e"%char \/ d = "m"%char \/ d = "d"%char \/ d = "r"%char ->
  c = d \/ c = upperByte d.
Proof.
  intros H [->|[->|[->|[->| ->]]]];
    destruct c as [[] [] [] [] [] [] [] []]; vm_compute in H |- *;
    first [discriminate H | by left | by right].
Qed.

Ltac among_accepted :=
  apply list_elem_of_In; vm_compute; repeat first [left; reflexivity | right].

Lemma lowers_to_accepted (s : string) :
  strings_ToLower s = "pem" \/ strings_ToLower s = "der" -> s ∈ acceptedFormats.
Proof.
  intros [H|H];
    destruct s as [|c1 [|c2 [|c3 [|c4 s]]]]; try discriminate H;
    cbn in H; injection H as H1 H2 H3;
    destruct (lowerByte_letter c1 _ H1 ltac:(tauto)) as [-> | ->];
    destruct (lowerByte_letter c2 _ H2 ltac:(tauto)) as [-> | ->];
    destruct (lowerByte_letter c3 _ H3 ltac:(tauto)) as [-> | ->];
    first [done | among_accepted].
Qed.

Lemma accepted_lowers (s : string) :
  s ∈ acceptedFormats -> strings_ToLower s = "pem" \/ strings_ToLower s = "der".
Proof.
  intros H. apply list_elem_of_In in H. vm_compute in H.
  repeat (destruct H as [<-|H]; [vm_compute; tauto|]). done.
Qed.

Lemma getCrlFormat_accepts (s : string) :
  s ∈ acceptedFormats <-> getCrlFormat s = Ok (strings_ToLower s).
Proof.
  unfold getCrlFormat. split.
  - intros [-> | ->]%accepted_lowers; done.
  - destruct (String.eqb_spec (strings_ToLower s) "pem") as [H|_];
      [intros _; apply lowers_to_accepted; tauto|].
    destruct (String.eqb_spec (strings_ToLower s) "der") as [H|_];
      [intros _; apply lowers_to_accepted; tauto|]. done.
Qed.

Lemma getCrlFormat_rejects (s : string) :
  s ∉ acceptedFormats <-> getCrlFormat s = Err ("unknown format value of " +:+ s).
Proof.
  split.
  - intros Hnot. unfold getCrlFormat.
    destruct (String.eqb_spec (strings_ToLower s) "pem") as [H|_];
      [destruct Hnot; apply lowers_to_accepted; tauto|].
    destruct (String.eqb_spec (strings_ToLower s) "der") as [H|_];
      [destruct Hnot; apply lowers_to_accepted; tauto|]. done.
  - intros H Hin. apply getCrlFormat_accepts in Hin. congruence.
Qed.

Lemma unknown_token s e : getCrlFormat s = Err e -> s ∉ acceptedFormats.
Proof. intros He Hs%getCrlFormat_accepts. congruence. Qed.

Lemma known_token s fmt : getCrlFormat s = Ok fmt -> s ∈ acceptedFormats.
Proof.
  intros Hs. destruct (decide (s ∈ acceptedFormats)) as [|Hn]; [done|].
  apply getCrlFormat_rejects in Hn. congruence.
Qed.

Lemma lowers_to_one (word s : string) :
  word = "pem" \/ word = "der" ->
  strings_ToLower s = word <-> s ∈ casings word.
Proof.
  intros Hword. split.
  - intros H.
    destruct Hword as [-> | ->];
      destruct s as [|c1 [|c2 [|c3 [|c4 s]]]]; try discriminate H;
      cbn in H; injection H as H1 H2 H3;
      destruct (lowerByte_letter c1 _ H1 ltac:(tauto)) as [-> | ->];
      destruct (lowerByte_letter c2 _ H2 ltac:(tauto)) as [-> | ->];
      destruct (lowerByte_letter c3 _ H3 ltac:(tauto)) as [-> | ->];
      first [done | among_accepted].
  - intros H. apply list_elem_of_In in H.
    destruct Hword as [-> | ->]; vm_compute in H;
      repeat (destruct H as [<-|H]; [reflexivity|]); done.
Qed.

(** X17. An accepted token is normalised: [getCrlFormat] hands back
    "pem" for the casings of "pem" and "der" for the casings of "der",
    never anything else, and accepts its own result unchanged. *)
Theorem getCrlFormat_normalises (s fmt : string) :
  getCrlFormat s = Ok fmt ->
  (fmt = "pem" /\ s ∈ casings "pem" \/ fmt = "der" /\ s ∈ casings "der") /\
  getCrlFormat fmt = Ok fmt.
Proof.
  unfold getCrlFormat.
  destruct (String.eqb_spec (strings_ToLower s) "pem") as [Hp|_].
  - intros [= <-]. rewrite Hp. split; [|done].
    left. split; [done|]. apply lowers_to_one; tauto.
  - destruct (String.eqb_spec (strings_ToLower s) "der") as [Hd|_]; [|done].
    intros [= <-]. rewrite Hd. split; [|done].
    right. split; [done|]. apply lowers_to_one; tauto.
Qed.

Lemma der_requested (s fmt : string) :
  getCrlFormat s = Ok fmt ->
  String.eqb fmt "der" = bool_decide (s ∈ casings "der").
Proof.
  unfold getCrlFormat.
  destruct (String.eqb_spec (strings_ToLower s) "pem") as [Hp|Hp].
  - intros [= <-]. rewrite Hp. symmetry. apply bool_decide_eq_false.
    intros Hd%lowers_to_one; [|tauto]. congruence.
  - destruct (String.eqb_spec (strings_ToLower s) "der") as [Hd|_]; [|done].
    intros [= <-]. rewrite Hd. symmetry. apply bool_decide_eq_true.
    apply lowers_to_one; tauto.
Qed.

(** ** The handler *)

Arguments encodeResponse : simpl never.
Arguments getAllRevokedCerts : simpl never.
Arguments Time_Add : simpl never.
Arguments String.append : simpl never.

Section HandlerFacts.

Context {ext : Externals}.

Lemma reconcile_nothing (key : Z -> string) (order : RangeOrder) :
  getAllRevokedCerts key order [] = ([], [], None).
Proof.
  rewrite revoked_certs_spec. cbn. rewrite map_to_list_empty.
  by rewrite (proj1 (Permutation_nil_r _) (visit_perm order [])).
Qed.

Lemma FieldsValid_checks data fmt d :
  FieldsValid data fmt d ->
  (d <=? 0) = false /\ (crl_number data <? 0) = false /\
  (delta_crl_base_number data <? -1) = false /\
  String.eqb (getIssuerRef data) "" = false.
Proof.
  intros [_ _ _ Hd Hn Hb Hi]. repeat split; try lia.
  by apply String.eqb_neq.
Qed.

(** Rewrites the handler with what is known about the calls it makes
    and lets it run. *)
Ltac run_handler :=
  unfold pathUpdateResignCrlsHandler;
  repeat match goal with
         | H : FieldsValid _ _ _ |- _ =>
             let Hl := fresh in let Hf := fresh in let Hp := fresh in
             pose proof (migration_done _ _ _ H) as Hl;
             pose proof (format_known _ _ _ H) as Hf;
             pose proof (duration_parsed _ _ _ H) as Hp;
             pose proof (FieldsValid_checks _ _ _ H) as (? & ? & ? & ?);
             clear H
         end;
  cbn;
  repeat (progress (repeat match goal with
         | H : _ = false |- _ => rewrite H
         | H : _ = true |- _ => rewrite H
         | H : _ = Ok _ |- _ => rewrite H
         | H : _ = Err _ |- _ => rewrite H
         | H : _ = Done _ |- _ => rewrite H
         | H : _ = Panic _ |- _ => rewrite H
         | H : _ = @None string |- _ => rewrite H
         | H : _ = @Some string _ |- _ => rewrite H
         | H : getAllRevokedCerts _ _ _ = _ |- _ => rewrite H
         end; cbn)).

(** Finds a call in an explicit log. *)
Ltac log_has :=
  apply list_elem_of_In; cbn; repeat first [left; reflexivity | right].

(** C10. A request that is valid but for its empty sequence of lists does
    not fail: decoding and verification succeed on nothing, the
    reconciled set is empty, and the list that is signed and returned
    holds no revoked certificate and comes without warnings. *)
Theorem empty_input_resigns data fmt d caBundle (signed : RevocationList -> list byte) :
  FieldsValid data fmt d ->
  crls data = [] ->
  getCaBundle (getIssuerRef data) = Ok caBundle ->
  (forall n, exists e, CreateDeltaCRLIndicatorExt n = Ok e) ->
  (forall t, x509_CreateRevocationList t (bundleCertificate caBundle)
               (bundlePrivateKey caBundle) = Ok (signed t)) ->
  decodePemCrls (crls data) = Done (Ok []) /\
  verifyCrlsAreFromIssuersKey (bundleCertificate caBundle) [] = None /\
  getAllRevokedCerts serialFromBigInt rangeOrder [] = ([], [], None) /\
  exists log template,
    pathUpdateResignCrlsHandler data =
      (log, Respond (CrlResponse [] (encodeResponse (signed template)
                                       (String.eqb fmt "der")))) /\
    Call_CreateRevocationList template ∈ log /\
    RevokedCertificates template = [] /\
    Number template = crl_number data.
Proof.
  intros Hvalid Hcrls Hbundle Hext Hsign.
  assert (Hdec : decodePemCrls (crls data) = Done (Ok [])) by by rewrite Hcrls.
  assert (Hver : verifyCrlsAreFromIssuersKey (bundleCertificate caBundle) [] = None) by done.
  pose proof (reconcile_nothing serialFromBigInt rangeOrder) as Hmerge.
  repeat split; try done.
  destruct (-1 <? delta_crl_base_number data) eqn:Hdelta.
  - destruct (Hext (delta_crl_base_number data)) as [e He].
    eexists _, _. run_handler.
    rewrite Hsign. cbn. split; [reflexivity|]. split; [|done]. log_has.
  - eexists _, _. run_handler.
    rewrite Hsign. cbn. split; [reflexivity|]. split; [|done]. log_has.
Qed.

Lemma checks_FieldsValid data fmt d :
  useLegacyBundleCaStorage = false ->
  getCrlFormat (format data) = Ok fmt ->
  time_ParseDuration (next_update data) = Ok d ->
  (d <=? 0) = false -> (crl_number data <? 0) = false ->
  (delta_crl_base_number data <? -1) = false ->
  String.eqb (getIssuerRef data) "" = false ->
  FieldsValid data fmt d.
Proof.
  intros ? ? ? ? ? ? Hi. apply String.eqb_neq in Hi. split; done || lia.
Qed.

(** Follows the handler through its early returns, in program order,
    naming what is learnt at each branch. *)
Ltac walk data :=
  unfold pathUpdateResignCrlsHandler; cbn;
  destruct useLegacyBundleCaStorage eqn:Hlegacy; cbn; [|
  destruct (getCrlFormat (format data)) as [fmt|efmt] eqn:Hformat; cbn; [
  destruct (time_ParseDuration (next_update data)) as [d|edur] eqn:Hduration; cbn; [
  destruct (d <=? 0) eqn:Hpositive; cbn; [|
  destruct (crl_number data <? 0) eqn:Hnumber; cbn; [|
  destruct (delta_crl_base_number data <? -1) eqn:Hdelta; cbn; [|
  destruct (String.eqb (getIssuerRef data) "") eqn:Hissuer; cbn; [|
  destruct (decodePemCrls (crls data)) as [[providedCrls|edec]|reason] eqn:Hdecode; cbn; [
  destruct (getCaBundle (getIssuerRef data)) as [caBundle|ebundle] eqn:Hbundle; cbn; [
  destruct (verifyCrlsAreFromIssuersKey (bundleCertificate caBundle) providedCrls)
    as [ever|] eqn:Hverify; cbn; [|
  rewrite (revoked_certs_spec serialFromBigInt rangeOrder providedCrls); cbn;
  destruct (-1 <? delta_crl_base_number data) eqn:Hindicator; cbn; [
    destruct (CreateDeltaCRLIndicatorExt (delta_crl_base_number data))
      as [e|eext] eqn:Hext; cbn; [
      destruct (x509_CreateRevocationList _ _ _) as [crlBytes|esign] eqn:Hsign; cbn | ] |
    destruct (x509_CreateRevocationList _ _ _) as [crlBytes|esign] eqn:Hsign; cbn ]
  ] | ] | | ] ] ] ] ] | ] | ] ].

(** Decides whether a call occurs in an explicit log. *)
Ltac in_log H :=
  repeat (apply elem_of_cons in H as [H|H]; [try discriminate H|]);
  try (apply elem_of_nil in H; contradiction H).


(** *** Signature verification *)

Lemma verifyCrlsFrom_first caCert crls : forall n i,
  FirstUnsigned caCert crls i ->
  verifyCrlsFrom caCert n crls =
    Some ("CRL index: " +:+ pretty (n + i)%nat +:+ " was not signed by requested issuer").
Proof.
  induction crls as [|crl crls IH]; intros n i [(c & err & Hc & Hbad) Hgood].
  - by rewrite lookup_nil in Hc.
  - destruct i as [|i]; cbn.
    + injection Hc as ->. rewrite Hbad. by rewrite Nat.add_0_r.
    + rewrite (Hgood 0%nat crl) by (done || lia).
      rewrite (IH (S n) i).
      * by replace (S n + i)%nat with (n + S i)%nat by lia.
      * split; [by exists c, err|].
        intros j c' Hj Hc'. apply (Hgood (S j)); [lia|done].
Qed.

(** C2. When a request has passed the checks on its fields, its lists
    have been decoded and the issuer has been resolved, and some decoded
    list does not verify against the issuer's certificate, the handler
    answers with the error response that names the first such index; it
    stops right after the verification, so the reconciler, the signer and
    the encoder are never called and nothing of any list is returned. *)
Theorem unsigned_crl_aborts data fmt d providedCrls caBundle i :
  FieldsValid data fmt d ->
  Decoded data providedCrls caBundle ->
  FirstUnsigned (bundleCertificate caBundle) providedCrls i ->
  let log := (pathUpdateResignCrlsHandler data).1 in
  pathUpdateResignCrlsHandler data =
    ([Call_getCrlFormat (format data); Call_ParseDuration (next_update data);
      Call_decodePemCrls; Call_getCaBundle (getIssuerRef data);
      Call_verifyCrlsAreFromIssuersKey],
     Respond (ErrorResponse
       ("CRL index: " +:+ pretty i +:+ " was not signed by requested issuer"))) /\
  (Call_getAllRevokedCerts ∉ log) /\
  (forall template, Call_CreateRevocationList template ∉ log) /\
  (forall crlBytes der, Call_encodeResponse crlBytes der ∉ log).
Proof.
  intros Hvalid [Hdec Hbundle] Hfirst.
  pose proof (verifyCrlsFrom_first _ _ 0%nat i Hfirst) as Hver.
  fold (verifyCrlsAreFromIssuersKey (bundleCertificate caBundle) providedCrls) in Hver.
  cbn zeta.
  assert (Hrun : pathUpdateResignCrlsHandler data =
    ([Call_getCrlFormat (format data); Call_ParseDuration (next_update data);
      Call_decodePemCrls; Call_getCaBundle (getIssuerRef data);
      Call_verifyCrlsAreFromIssuersKey],
     Respond (ErrorResponse
       ("CRL index: " +:+ pretty i +:+ " was not signed by requested issuer")))).
  { run_handler. done. }
  rewrite Hrun. cbn [fst]. split; [done|].
  repeat split; intros; intros Hin; in_log Hin.
Qed.

(** *** Decoding *)

Lemma decodePemCrlsFrom_app before rest : forall i acc decoded,
  decodePemCrlsFrom i before acc = Done (Ok decoded) ->
  decodePemCrlsFrom i (before ++ rest) acc =
    decodePemCrlsFrom (i + length before) rest decoded.
Proof.
  induction before as [|raw before IH]; intros i acc decoded H; cbn in *.
  - injection H as ->. by rewrite Nat.add_0_r.
  - destruct (decodePemCrl raw) as [[crl|e]|reason]; try done.
    rewrite (IH _ _ _ H). f_equal. lia.
Qed.

(** Text with bytes outside its single block is refused with its index. *)
Lemma trailing_bytes_refused before raw after decoded block rest :
  decodePemCrls before = Done (Ok decoded) ->
  pem_Decode (list_byte_of_string raw) = (block, rest) ->
  rest <> [] ->
  decodePemCrls (before ++ raw :: after) =
    Done (Err ("failed decoding crl " +:+ pretty (length before) +:+
               ": invalid crl; should be one PEM block only")).
Proof.
  intros Hbefore Hpem Hrest. unfold decodePemCrls in *.
  rewrite (decodePemCrlsFrom_app _ _ _ _ _ Hbefore). cbn.
  unfold decodePemCrl. rewrite Hpem. by destruct rest.
Qed.

(** A block whose payload does not parse is refused with its index. *)
Lemma malformed_payload_refused before raw after decoded block e :
  decodePemCrls before = Done (Ok decoded) ->
  pem_Decode (list_byte_of_string raw) = (Some block, []) ->
  x509_ParseRevocationList (Bytes block) = Err e ->
  decodePemCrls (before ++ raw :: after) =
    Done (Err ("failed decoding crl " +:+ pretty (length before) +:+ ": " +:+ e)).
Proof.
  intros Hbefore Hpem Hparse. unfold decodePemCrls in *.
  rewrite (decodePemCrlsFrom_app _ _ _ _ _ Hbefore). cbn.
  unfold decodePemCrl. rewrite Hpem. cbn. by rewrite Hparse.
Qed.

(** C3 (the code departs from the claim). [pem.Decode] finds no block in
    the empty text and leaves no rest, so [decodePemCrl] passes its
    length check and dereferences the nil block: a request whose [crls]
    holds an empty string makes the handler panic instead of answering
    with an error response that names the index. *)
Theorem empty_crl_text_panics data fmt d before after decoded :
  FieldsValid data fmt d ->
  pem_Decode [] = (None, []) ->
  crls data = before ++ "" :: after ->
  decodePemCrls before = Done (Ok decoded) ->
  decodePemCrl "" = Panic "invalid memory address or nil pointer dereference" /\
  pathUpdateResignCrlsHandler data =
    ([Call_getCrlFormat (format data); Call_ParseDuration (next_update data);
      Call_decodePemCrls],
     Crash "invalid memory address or nil pointer dereference").
Proof.
  intros Hvalid Hpem Hcrls Hbefore.
  assert (Hone : decodePemCrl "" =
                 Panic "invalid memory address or nil pointer dereference").
  { unfold decodePemCrl. cbn. by rewrite Hpem. }
  split; [done|].
  assert (Hdec : decodePemCrls (crls data) =
                 Panic "invalid memory address or nil pointer dereference").
  { rewrite Hcrls. unfold decodePemCrls in *.
    rewrite (decodePemCrlsFrom_app _ _ _ _ _ Hbefore). cbn. by rewrite Hone. }
  run_handler. done.
Qed.

(** C4. A request whose [format] is not a casing of "pem" or "der" is
    answered with an error response before anything is decoded, verified
    or signed: the handler has made no call but the one to
    [getCrlFormat], and none at all while the migration is pending.
    Every casing of "pem" and of "der" is accepted by [getCrlFormat],
    which accepts nothing else. *)
Theorem unknown_format_fails_fast data :
  (format data ∉ acceptedFormats ->
   pathUpdateResignCrlsHandler data =
     (if useLegacyBundleCaStorage
      then ([], errorResponse "This API cannot be used until the migration has completed")
      else ([Call_getCrlFormat (format data)],
            errorResponse ("unknown format value of " +:+ format data))) /\
   Forall (fun c => c = Call_getCrlFormat (format data))
          (pathUpdateResignCrlsHandler data).1) /\
  (forall s, s ∈ acceptedFormats <-> exists fmt, getCrlFormat s = Ok fmt) /\
  acceptedFormats = ["pem"; "peM"; "pEm"; "pEM"; "Pem"; "PeM"; "PEm"; "PEM";
                     "der"; "deR"; "dEr"; "dER"; "Der"; "DeR"; "DEr"; "DER"].
Proof.
  split; [|split; [|done]].
  - intros Hnot%getCrlFormat_rejects.
    assert (Hrun : pathUpdateResignCrlsHandler data =
     (if useLegacyBundleCaStorage
      then ([], errorResponse "This API cannot be used until the migration has completed")
      else ([Call_getCrlFormat (format data)],
            errorResponse ("unknown format value of " +:+ format data)))).
    { unfold pathUpdateResignCrlsHandler.
      destruct useLegacyBundleCaStorage; cbn; [done|]. by rewrite Hnot. }
    split; [done|]. rewrite Hrun.
    destruct useLegacyBundleCaStorage; cbn; by repeat constructor.
  - intros s. split.
    + intros H%getCrlFormat_accepts. eauto.
    + intros [fmt H]. destruct (decide (s ∈ acceptedFormats)) as [|Hnot]; [done|].
      apply getCrlFormat_rejects in Hnot. congruence.
Qed.

(** *** Further facts about verification and decoding *)

Lemma verifyCrlsFrom_None caCert crls : forall n,
  verifyCrlsFrom caCert n crls = None <->
  Forall (fun crl => CheckSignatureFrom crl caCert = None) crls.
Proof.
  induction crls as [|crl crls IH]; intros n; cbn.
  - split; [constructor|done].
  - destruct (CheckSignatureFrom crl caCert) as [err|] eqn:Hcrl.
    + split; [done|]. intros [H _]%Forall_cons. congruence.
    + rewrite IH. split; [by constructor|by intros [_ ?]%Forall_cons].
Qed.

Lemma verifyCrlsFrom_Some caCert crls : forall n e,
  verifyCrlsFrom caCert n crls = Some e ->
  exists i, (i < length crls)%nat /\ FirstUnsigned caCert crls i /\
            e = "CRL index: " +:+ pretty (n + i)%nat +:+ " was not signed by requested issuer".
Proof.
  induction crls as [|crl crls IH]; intros n e H; cbn in H; [done|].
  destruct (CheckSignatureFrom crl caCert) as [err|] eqn:Hcrl.
  - injection H as <-. exists 0%nat. split; [cbn; lia|]. split.
    + split; [by exists crl, err|]. intros j c Hj. lia.
    + by rewrite Nat.add_0_r.
  - destruct (IH _ _ H) as (i & Hi & [(c & err & Hc & Hbad) Hgood] & ->).
    exists (S i). split; [cbn; lia|]. split.
    + split; [by exists c, err|].
      intros [|j] c' Hj Hc'; [by injection Hc' as <-|].
      apply (Hgood j); [lia|done].
    + by replace (S n + i)%nat with (n + S i)%nat by lia.
Qed.

(** X6. [verifyCrlsAreFromIssuersKey] returns nil exactly when every
    list passes [CheckSignatureFrom]; otherwise its error names the
    first position, always within the sequence, whose list fails. *)
Theorem verification_outcome caCert crls :
  (verifyCrlsAreFromIssuersKey caCert crls = None <->
   Forall (fun crl => CheckSignatureFrom crl caCert = None) crls) /\
  (forall e, verifyCrlsAreFromIssuersKey caCert crls = Some e <->
     exists i, (i < length crls)%nat /\ FirstUnsigned caCert crls i /\
               e = "CRL index: " +:+ pretty i +:+ " was not signed by requested issuer").
Proof.
  split; [apply verifyCrlsFrom_None|].
  intros e. split.
  - intros H. by apply verifyCrlsFrom_Some in H.
  - intros (i & _ & Hfirst & ->). by apply (verifyCrlsFrom_first _ _ 0%nat).
Qed.

Lemma decodePemCrlsFrom_Ok raws : forall i acc l,
  decodePemCrlsFrom i raws acc = Done (Ok l) <->
  exists l', l = acc ++ l' /\
             Forall2 (fun raw crl => decodePemCrl raw = Done (Ok crl)) raws l'.
Proof.
  induction raws as [|raw raws IH]; intros i acc l; cbn.
  - split.
    + intros [= <-]. exists []. by rewrite app_nil_r.
    + intros (l' & -> & ->%Forall2_nil_inv_l). by rewrite app_nil_r.
  - destruct (decodePemCrl raw) as [[crl|e]|reason] eqn:Hraw.
    + rewrite IH. split.
      * intros (l' & -> & H). exists (crl :: l'). rewrite <- app_assoc. split; [done|].
        by constructor.
      * intros (l' & -> & H). apply Forall2_cons_inv_l in H as (c & l'' & Hc & H & ->).
        assert (c = crl) as -> by congruence.
        exists l''. by rewrite <- app_assoc.
    + split; [done|]. intros (l' & _ & H).
      apply Forall2_cons_inv_l in H as (c & l'' & Hc & _). congruence.
    + split; [done|]. intros (l' & _ & H).
      apply Forall2_cons_inv_l in H as (c & l'' & Hc & _). congruence.
Qed.

Lemma decodePemCrls_Ok rawCrls decoded :
  Forall2 (fun raw crl => decodePemCrl raw = Done (Ok crl)) rawCrls decoded ->
  decodePemCrls rawCrls = Done (Ok decoded).
Proof. intros H. apply decodePemCrlsFrom_Ok. by exists decoded. Qed.

(** X7. Decoding is pointwise and keeps positions: [decodePemCrls]
    succeeds exactly when every text decodes on its own, and then its
    result holds, position by position, the list decoded from each
    text. *)
Theorem decoding_is_pointwise rawCrls decoded :
  decodePemCrls rawCrls = Done (Ok decoded) <->
  Forall2 (fun raw crl => decodePemCrl raw = Done (Ok crl)) rawCrls decoded.
Proof.
  unfold decodePemCrls. rewrite decodePemCrlsFrom_Ok. split.
  - by intros (l' & -> & H).
  - intros H. by exists decoded.
Qed.

Lemma decodePemCrlsFrom_stops raws : forall i acc o,
  decodePemCrlsFrom i raws acc = o ->
  (forall l, o <> Done (Ok l)) ->
  exists before raw after decoded,
    raws = before ++ raw :: after /\
    Forall2 (fun raw crl => decodePemCrl raw = Done (Ok crl)) before decoded /\
    match decodePemCrl raw with
    | Done (Ok _) => False
    | Done (Err err) =>
        o = Done (Err ("failed decoding crl " +:+ pretty (i + length before)%nat
                       +:+ ": " +:+ err))
    | Panic reason => o = Panic reason
    end.
Proof.
  induction raws as [|raw raws IH]; intros i acc o H Hbad; cbn in H.
  - by destruct (Hbad acc).
  - destruct (decodePemCrl raw) as [[crl|e]|reason] eqn:Hraw.
    + destruct (IH _ _ _ H Hbad) as (before & raw' & after & decoded & -> & Hall & Hlast).
      exists (raw :: before), raw', after, (crl :: decoded).
      split; [done|]. split; [by constructor|].
      cbn [length]. by replace (i + S (length before))%nat with (S i + length before)%nat by lia.
    + exists [], raw, raws, []. split; [done|]. split; [constructor|].
      rewrite Hraw. cbn. by rewrite Nat.add_0_r.
    + exists [], raw, raws, []. split; [done|]. split; [constructor|].
      by rewrite Hraw.
Qed.

(** X8. [decodePemCrls] stops at the first text that does not decode:
    its error is that text's error prefixed with the text's position,
    and its panic is that text's panic; the texts after it are not
    looked at. *)
Theorem decoding_stops_at_first_failure rawCrls :
  (forall e, decodePemCrls rawCrls = Done (Err e) <->
     exists before raw after decoded err,
       rawCrls = before ++ raw :: after /\
       Forall2 (fun raw crl => decodePemCrl raw = Done (Ok crl)) before decoded /\
       decodePemCrl raw = Done (Err err) /\
       e = "failed decoding crl " +:+ pretty (length before) +:+ ": " +:+ err) /\
  (forall reason, decodePemCrls rawCrls = Panic reason <->
     exists before raw after decoded,
       rawCrls = before ++ raw :: after /\
       Forall2 (fun raw crl => decodePemCrl raw = Done (Ok crl)) before decoded /\
       decodePemCrl raw = Panic reason).
Proof.
  split.
  - intros e. split.
    + intros H.
      destruct (decodePemCrlsFrom_stops _ _ _ _ H) as (before & raw & after & decoded & -> & Hall & Hlast);
        [done|].
      exists before, raw, after, decoded.
      destruct (decodePemCrl raw) as [[crl|err]|reason]; [done| |done].
      exists err. by injection Hlast as ->.
    + intros (before & raw & after & decoded & err & -> & Hall%decodePemCrls_Ok & Hraw & ->).
      unfold decodePemCrls in *.
      rewrite (decodePemCrlsFrom_app _ _ _ _ _ Hall). cbn. by rewrite Hraw.
  - intros reason. split.
    + intros H.
      destruct (decodePemCrlsFrom_stops _ _ _ _ H) as (before & raw & after & decoded & -> & Hall & Hlast);
        [done|].
      exists before, raw, after, decoded.
      destruct (decodePemCrl raw) as [[crl|err]|reason']; [done|done|].
      by injection Hlast as ->.
    + intros (before & raw & after & decoded & -> & Hall%decodePemCrls_Ok & Hraw).
      unfold decodePemCrls in *.
      rewrite (decodePemCrlsFrom_app _ _ _ _ _ Hall). cbn. by rewrite Hraw.
Qed.

Lemma decodePemCrl_panics_on crl reason :
  (forall data rest, pem_Decode data = (None, rest) -> rest = data) ->
  decodePemCrl crl = Panic reason -> crl = "".
Proof.
  intros Hcontract. unfold decodePemCrl.
  destruct (pem_Decode (list_byte_of_string crl)) as [[b|] rest] eqn:Hpem;
    destruct rest as [|x rest]; try done.
  intros _. apply Hcontract in Hpem.
  rewrite <- (string_of_list_byte_of_string crl), <- Hpem. done.
Qed.

(** *** Further facts about the handler *)

(** X9. As long as [pem.Decode] hands the whole input back when it finds
    no block, the empty string is the only text on which [decodePemCrl]
    panics: [decodePemCrls] panics only on a sequence that holds an
    empty string, and so does the handler. *)
Theorem only_the_empty_text_panics :
  (forall data rest, pem_Decode data = (None, rest) -> rest = data) ->
  (forall crl reason, decodePemCrl crl = Panic reason -> crl = "") /\
  (forall rawCrls reason, decodePemCrls rawCrls = Panic reason -> "" ∈ rawCrls) /\
  (forall data reason, (pathUpdateResignCrlsHandler data).2 = Crash reason ->
                       "" ∈ crls data).
Proof.
  intros Hcontract.
  assert (Hlist : forall rawCrls reason,
            decodePemCrls rawCrls = Panic reason -> "" ∈ rawCrls).
  { intros rawCrls reason H.
    destruct (decodePemCrlsFrom_stops _ _ _ _ H) as (before & raw & after & decoded & -> & _ & Hlast);
      [done|].
    destruct (decodePemCrl raw) as [[crl|err]|reason'] eqn:Hraw; [done|done|].
    apply decodePemCrl_panics_on in Hraw as ->; [|done].
    apply elem_of_app. right. left. }
  split; [intros crl reason; by apply decodePemCrl_panics_on|].
  split; [done|].
  intros data why. walk data; intros [=]. subst. by apply (Hlist _ why).
Qed.

(** X1. The handler starts decoding exactly when the request has passed
    every check on its fields. *)
Theorem decoding_starts_iff_fields_valid data :
  Call_decodePemCrls ∈ (pathUpdateResignCrlsHandler data).1 <->
  exists fmt d, FieldsValid data fmt d.
Proof.
  walk data.
  all: split;
    [ intros Hin; first [ by (in_log Hin) | exists fmt, d; by apply checks_FieldsValid ]
    | intros (fmt' & d' & Hvalid) ].
  all: try log_has.
  all: pose proof (migration_done _ _ _ Hvalid);
       pose proof (format_known _ _ _ Hvalid);
       pose proof (duration_parsed _ _ _ Hvalid);
       pose proof (FieldsValid_checks _ _ _ Hvalid) as (? & ? & ? & ?);
       congruence.
Qed.

(** X2. The checks on the fields are made in a fixed order (migration,
    format, duration, crl number, delta base number, issuer) and the
    first one that fails decides the answer, with its own message;
    nothing has been decoded, looked up or signed by then. *)
Theorem field_checks_in_order data :
  (useLegacyBundleCaStorage = true ->
   pathUpdateResignCrlsHandler data =
     ([], errorResponse "This API cannot be used until the migration has completed")) /\
  (useLegacyBundleCaStorage = false ->
   forall e, getCrlFormat (format data) = Err e ->
   e = "unknown format value of " +:+ format data /\
   pathUpdateResignCrlsHandler data =
     ([Call_getCrlFormat (format data)], errorResponse e)) /\
  (useLegacyBundleCaStorage = false ->
   forall fmt, getCrlFormat (format data) = Ok fmt ->
   let made := [Call_getCrlFormat (format data); Call_ParseDuration (next_update data)] in
   (forall e, time_ParseDuration (next_update data) = Err e ->
      pathUpdateResignCrlsHandler data =
        (made, errorResponse ("invalid value for next_update: " +:+ e))) /\
   (forall d, time_ParseDuration (next_update data) = Ok d ->
      (d <= 0 ->
       pathUpdateResignCrlsHandler data =
         (made, errorResponse "next_update parameter must be greater than 0")) /\
      (0 < d -> crl_number data < 0 ->
       pathUpdateResignCrlsHandler data =
         (made, errorResponse "crl_number parameter must be 0 or greater")) /\
      (0 < d -> 0 <= crl_number data -> delta_crl_base_number data < -1 ->
       pathUpdateResignCrlsHandler data =
         (made, errorResponse "delta_crl_base_number parameter must be -1 or greater")) /\
      (0 < d -> 0 <= crl_number data -> -1 <= delta_crl_base_number data ->
       getIssuerRef data = "" ->
       pathUpdateResignCrlsHandler data =
         (made, errorResponse (issuerRefParam +:+ " parameter cannot be blank"))))).
Proof.
  split; [|split].
  - intros Hlegacy. unfold pathUpdateResignCrlsHandler. by rewrite Hlegacy.
  - intros Hlegacy e Hformat. split.
    + pose proof (proj1 (getCrlFormat_rejects _) (unknown_token _ _ Hformat)). congruence.
    + run_handler. done.
  - intros Hlegacy fmt Hformat. cbn zeta. split.
    + intros e He. run_handler. done.
    + intros d Hd. repeat split.
      * intros Hle. apply Z.leb_le in Hle. run_handler. done.
      * intros Hpos%Z.leb_gt Hneg%Z.ltb_lt. run_handler. done.
      * intros Hpos%Z.leb_gt Hnum%Z.ltb_ge Hdelta%Z.ltb_lt. run_handler. done.
      * intros Hpos%Z.leb_gt Hnum%Z.ltb_ge Hdelta%Z.ltb_ge Hblank.
        apply String.eqb_eq in Hblank. run_handler. done.
Qed.

(** X5. A sequence of lists that does not decode stops the handler
    before the issuer is looked up, and an issuer that cannot be
    resolved or fetched stops it before any signature is checked; the
    resolver's error is reported behind the name of the issuer field,
    the fetcher's as it is. *)
Theorem decoding_and_issuer_gates data fmt d :
  FieldsValid data fmt d ->
  let made := [Call_getCrlFormat (format data); Call_ParseDuration (next_update data);
               Call_decodePemCrls] in
  (forall e, decodePemCrls (crls data) = Done (Err e) ->
     pathUpdateResignCrlsHandler data = (made, errorResponse e)) /\
  (forall providedCrls, decodePemCrls (crls data) = Done (Ok providedCrls) ->
     (forall e, resolveIssuerReference (getIssuerRef data) = Err e ->
        pathUpdateResignCrlsHandler data =
          (made ++ [Call_getCaBundle (getIssuerRef data)],
           errorResponse ("failed to resolve issuer " +:+ issuerRefParam +:+ ": " +:+ e))) /\
     (forall issuerId e, resolveIssuerReference (getIssuerRef data) = Ok issuerId ->
        fetchCAInfoByIssuerId issuerId = Err e ->
        pathUpdateResignCrlsHandler data =
          (made ++ [Call_getCaBundle (getIssuerRef data)], errorResponse e))).
Proof.
  intros Hvalid. cbn zeta. split.
  - intros e He. run_handler. done.
  - intros providedCrls Hdec. split.
    + intros e He.
      assert (Hbundle : getCaBundle (getIssuerRef data) =
                Err ("failed to resolve issuer " +:+ issuerRefParam +:+ ": " +:+ e)).
      { unfold getCaBundle. by rewrite He. }
      clear He. run_handler. done.
    + intros issuerId e Hid He.
      assert (Hbundle : getCaBundle (getIssuerRef data) = Err e).
      { unfold getCaBundle. by rewrite Hid. }
      clear Hid He. run_handler. done.
Qed.

(** X3. The signer is only ever called for a request whose fields are
    valid, whose lists all decoded and whose lists all pass
    [CheckSignatureFrom] against the certificate of the issuer the
    request names; the key it signs with is that issuer's. *)
Theorem signer_called_only_when_authenticated data template :
  Call_CreateRevocationList template ∈ (pathUpdateResignCrlsHandler data).1 ->
  exists fmt d providedCrls caBundle,
    FieldsValid data fmt d /\
    Decoded data providedCrls caBundle /\
    Forall (fun crl => CheckSignatureFrom crl (bundleCertificate caBundle) = None)
           providedCrls /\
    SignatureAlgorithm template = RevocationSigAlg caBundle /\
    ((pathUpdateResignCrlsHandler data).2 = Fail
       ("error creating new CRL: " +:+
        match x509_CreateRevocationList template (bundleCertificate caBundle)
                (bundlePrivateKey caBundle) with Err e => e | Ok _ => "" end) \/
     exists crlBytes warnings der,
       x509_CreateRevocationList template (bundleCertificate caBundle)
         (bundlePrivateKey caBundle) = Ok crlBytes /\
       (pathUpdateResignCrlsHandler data).2 =
         Respond (CrlResponse warnings (encodeResponse crlBytes der))).
Proof.
  walk data; intros Hin; in_log Hin; injection Hin as ->.
  all: exists fmt, d, providedCrls, caBundle.
  all: split; [by apply checks_FieldsValid|].
  all: split; [by split|].
  all: split; [by apply (verifyCrlsFrom_None _ _ 0%nat)|].
  all: split; [done|].
  all: rewrite Hsign; first [by left | right; by eexists _, _, _].
Qed.

(** X4. A successful answer is built from the request and the issuer as
    follows: the signed template carries the requested number, the
    issuer's signature algorithm, the current time as [ThisUpdate] and a
    [NextUpdate] that lies the parsed duration later, and holds the
    reconciled entries; the answer carries the reconciler's warnings and
    the signed bytes, in base64 when the token is a casing of "der" and
    as a PEM block otherwise. *)
Theorem successful_answer_contents data warnings body :
  (pathUpdateResignCrlsHandler data).2 = Respond (CrlResponse warnings body) ->
  exists fmt d providedCrls caBundle template crlBytes,
    FieldsValid data fmt d /\
    Decoded data providedCrls caBundle /\
    Call_CreateRevocationList template ∈ (pathUpdateResignCrlsHandler data).1 /\
    x509_CreateRevocationList template (bundleCertificate caBundle)
      (bundlePrivateKey caBundle) = Ok crlBytes /\
    Number template = crl_number data /\
    SignatureAlgorithm template = RevocationSigAlg caBundle /\
    ThisUpdate template = time_Now /\
    unixNano (NextUpdate template) - unixNano (ThisUpdate template) = d /\
    RevokedCertificates template =
      (getAllRevokedCerts serialFromBigInt rangeOrder providedCrls).1.1 /\
    warnings = (getAllRevokedCerts serialFromBigInt rangeOrder providedCrls).1.2 /\
    body = encodeResponse crlBytes (bool_decide (format data ∈ casings "der")).
Proof.
  set (der := bool_decide (format data ∈ casings "der")).
  assert (Hder : forall fmt, getCrlFormat (format data) = Ok fmt -> String.eqb fmt "der" = der)
    by (intros fmt; apply der_requested).
  clearbody der.
  walk data; intros [= <- <-].
  all: eexists fmt, d, providedCrls, caBundle, _, crlBytes.
  all: rewrite (revoked_certs_spec serialFromBigInt rangeOrder providedCrls).
  all: rewrite <- (Hder fmt eq_refl).
  all: split; [by apply checks_FieldsValid|].
  all: split; [by split|].
  all: split; [log_has|].
  all: split; [exact Hsign|].
  all: cbn; unfold Time_Add; cbn; repeat split; lia.
Qed.

(** *** Who is to blame for a failure *)

Lemma decodePemCrl_HoldsCrl raw crl :
  decodePemCrl raw = Done (Ok crl) <-> HoldsCrl raw crl.
Proof.
  unfold decodePemCrl, HoldsCrl.
  destruct (pem_Decode (list_byte_of_string raw)) as [[b|] [|x rest]]; cbn.
  - split.
    + intros [= H]. by exists b.
    + intros (b' & [= <-] & H). by rewrite H.
  - split; [done|]. by intros (b' & [=] & _).
  - split; [done|]. by intros (b' & [=] & _).
  - split; [done|]. by intros (b' & [=] & _).
Qed.

Lemma decodePemCrls_HoldsCrl raws l :
  decodePemCrls raws = Done (Ok l) <-> Forall2 HoldsCrl raws l.
Proof.
  unfold decodePemCrls. rewrite decodePemCrlsFrom_Ok. split.
  - intros (l' & -> & H). cbn. eapply Forall2_impl; [exact H|].
    intros raw crl. apply decodePemCrl_HoldsCrl.
  - intros H. exists l. split; [done|]. eapply Forall2_impl; [exact H|].
    intros raw crl. apply decodePemCrl_HoldsCrl.
Qed.

Lemma undecodable_text raws :
  (forall l, decodePemCrls raws <> Done (Ok l)) <->
  exists raw, raw ∈ raws /\ forall crl, ~ HoldsCrl raw crl.
Proof.
  split.
  - intros Hnot.
    destruct (decodePemCrlsFrom_stops raws 0 [] _ eq_refl Hnot)
      as (before & raw & after & decoded & -> & _ & Hraw).
    exists raw. split; [apply elem_of_app; right; left|].
    intros crl Hcrl%decodePemCrl_HoldsCrl. by rewrite Hcrl in Hraw.
  - intros (raw & [i Hi]%list_elem_of_lookup_1 & Hraw) l Hl%decodePemCrls_HoldsCrl.
    destruct (Forall2_lookup_l _ _ _ _ _ Hl Hi) as (crl & _ & Hcrl).
    by apply (Hraw crl).
Qed.

Lemma unvouched_list caCert crls :
  (exists e, verifyCrlsAreFromIssuersKey caCert crls = Some e) <->
  exists crl e, crl ∈ crls /\ CheckSignatureFrom crl caCert = Some e.
Proof.
  split.
  - intros [e (i & _ & [(crl & err & Hcrl & Hbad) _] & _)%verifyCrlsFrom_Some].
    exists crl, err. split; [by apply list_elem_of_lookup_2 with i|done].
  - intros (crl & e & Hcrl & Hbad).
    destruct (verifyCrlsAreFromIssuersKey caCert crls) as [e'|] eqn:Hver; [by exists e'|].
    apply verifyCrlsFrom_None in Hver. rewrite Forall_forall in Hver.
    specialize (Hver crl Hcrl). congruence.
Qed.

Lemma Accepted_checks data d providedCrls caBundle :
  Accepted data d providedCrls caBundle <->
  (exists fmt, FieldsValid data fmt d) /\
  decodePemCrls (crls data) = Done (Ok providedCrls) /\
  getCaBundle (getIssuerRef data) = Ok caBundle /\
  verifyCrlsAreFromIssuersKey (bundleCertificate caBundle) providedCrls = None.
Proof.
  split.
  - intros [Hvalid Hdec Hbundle Hver]. split; [done|].
    split; [by apply decodePemCrls_HoldsCrl|]. split; [done|].
    by apply verifyCrlsFrom_None.
  - intros (Hvalid & Hdec & Hbundle & Hver). split; [done| |done|].
    + by apply decodePemCrls_HoldsCrl.
    + by apply verifyCrlsFrom_None in Hver.
Qed.

Lemma accepted_not_to_blame data d providedCrls caBundle :
  Accepted data d providedCrls caBundle -> ~ ValidationFailure data.
Proof.
  intros ([fmt [Hl Hf Hp Hd Hn Hb Hi]] & Hdec & Hbundle & Hver)%Accepted_checks Hbad.
  destruct Hbad as [H|H|e H|d' H H'|H|H|H|raw H H'|e H|crls' b' crl e H H' Hcrl Hbad].
  - congruence.
  - by apply H, (known_token _ fmt).
  - congruence.
  - assert (d' = d) by congruence. lia.
  - lia.
  - lia.
  - done.
  - assert (Hraw : exists raw, raw ∈ crls data /\ forall crl, ~ HoldsCrl raw crl)
      by by exists raw.
    by apply (proj2 (undecodable_text (crls data)) Hraw providedCrls).
  - congruence.
  - apply decodePemCrls_HoldsCrl in H.
    assert (crls' = providedCrls) as -> by congruence.
    assert (b' = caBundle) as -> by congruence.
    assert (Hsome : exists e,
              verifyCrlsAreFromIssuersKey (bundleCertificate caBundle) providedCrls = Some e)
      by (apply unvouched_list; by exists crl, e).
    destruct Hsome as [e' He']. congruence.
Qed.

Lemma go_error_is_internal data err :
  (pathUpdateResignCrlsHandler data).2 = Fail err -> InternalFailure data err.
Proof.
  walk data; intros [= <-].
  all: assert (Haccepted : Accepted data d providedCrls caBundle)
         by (apply Accepted_checks; repeat split; try done;
             exists fmt; by apply checks_FieldsValid).
  - apply (signing_failure data d providedCrls caBundle [e]); [done| |].
    + right. split; [lia|]. by exists e.
    + unfold resignTemplate. by rewrite revoked_certs_spec.
  - apply (extension_failure data d providedCrls caBundle); [done|lia|done].
  - apply (signing_failure data d providedCrls caBundle []); [done| |].
    + left. split; [lia|done].
    + unfold resignTemplate. by rewrite revoked_certs_spec.
Qed.

Lemma internal_is_go_error data err :
  InternalFailure data err -> (pathUpdateResignCrlsHandler data).2 = Fail err.
Proof.
  intros [d providedCrls caBundle e Haccepted Hbase Hext
         |d providedCrls caBundle exts e Haccepted Hexts Hsign].
  - apply Accepted_checks in Haccepted as ([fmt Hvalid] & Hdec & Hbundle & Hver).
    assert (Hindicator : (-1 <? delta_crl_base_number data) = true) by lia.
    run_handler. rewrite revoked_certs_spec. by cbn.
  - apply Accepted_checks in Haccepted as ([fmt Hvalid] & Hdec & Hbundle & Hver).
    unfold resignTemplate in Hsign. rewrite revoked_certs_spec in Hsign.
    cbn [fst] in Hsign.
    destruct Hexts as [[Hbase ->]|[Hbase (indicator & Hext & ->)]].
    + assert (Hindicator : (-1 <? delta_crl_base_number data) = false) by lia.
      run_handler. rewrite revoked_certs_spec. cbn. by rewrite Hsign.
    + assert (Hindicator : (-1 <? delta_crl_base_number data) = true) by lia.
      run_handler. rewrite revoked_certs_spec. unfold withExtraExtensions. cbn.
      by rewrite Hsign.
Qed.

Lemma unanswered_is_to_blame data :
  (exists text, (pathUpdateResignCrlsHandler data).2 = Respond (ErrorResponse text)) \/
  (exists reason, (pathUpdateResignCrlsHandler data).2 = Crash reason) ->
  ValidationFailure data.
Proof.
  walk data; intros [[text Hr]|[why Hr]]; try discriminate Hr.
  all: first
    [ by apply migration_pending
    | by apply unknown_format, (unknown_token _ efmt)
    | by apply (unparsable_duration data edur)
    | by apply (non_positive_duration data d); [|lia]
    | apply negative_crl_number; lia
    | apply delta_base_below_sentinel; lia
    | by apply blank_issuer, String.eqb_eq
    | by apply (unresolved_issuer data ebundle)
    | destruct (proj1 (unvouched_list (bundleCertificate caBundle) providedCrls))
        as (crl & e & Hcrl & Hbad); [by exists ever|];
      apply (foreign_crl data providedCrls caBundle crl e); try done;
      by apply decodePemCrls_HoldsCrl
    | destruct (proj1 (undecodable_text (crls data))) as (raw & Hraw & Hnone);
        [intros l; congruence|];
      by apply (malformed_crl data raw) ].
Qed.

Lemma to_blame_is_unanswered data :
  ValidationFailure data ->
  (exists text, (pathUpdateResignCrlsHandler data).2 = Respond (ErrorResponse text)) \/
  (exists reason, (pathUpdateResignCrlsHandler data).2 = Crash reason).
Proof.
  walk data; intros Hbad.
  all: try (left; by eexists).
  all: try (right; by eexists).
  all: destruct (accepted_not_to_blame data d providedCrls caBundle); [|done].
  all: apply Accepted_checks; repeat split; try done.
  all: exists fmt; by apply checks_FieldsValid.
Qed.

Lemma crash_is_nil_block data why :
  (pathUpdateResignCrlsHandler data).2 = Crash why <->
  (exists fmt d, FieldsValid data fmt d) /\ decodePemCrls (crls data) = Panic why.
Proof.
  split.
  - walk data; intros [= <-]. split; [|done].
    exists fmt, d. by apply checks_FieldsValid.
  - intros [(fmt & d & Hvalid) Hdec]. run_handler. done.
Qed.

(** C7. The handler returns a Go error exactly when the request is
    accepted and the Delta CRL Indicator encoder or the signer fails,
    with that failure behind its own prefix; such a request is never
    one the caller is to blame for.  A request the caller is to blame
    for is answered with an error response and a nil Go error, or not
    at all: the handler panics instead, exactly when every field is in
    range and decoding reaches a text in which [pem.Decode] finds no
    block and leaves nothing over. *)
Theorem failures_are_classified data :
  let r := (pathUpdateResignCrlsHandler data).2 in
  (forall err, r = Fail err <-> InternalFailure data err) /\
  (forall err, InternalFailure data err -> ~ ValidationFailure data) /\
  (ValidationFailure data <->
   (exists text, r = Respond (ErrorResponse text)) \/ (exists reason, r = Crash reason)) /\
  (forall reason, r = Crash reason <->
     (exists fmt d, FieldsValid data fmt d) /\ decodePemCrls (crls data) = Panic reason).
Proof.
  cbn zeta. split; [|split; [|split]].
  - intros err. split; [apply go_error_is_internal|apply internal_is_go_error].
  - intros err Hinternal Hbad.
    apply internal_is_go_error in Hinternal. apply to_blame_is_unanswered in Hbad.
    destruct Hbad as [[text Hr]|[reason Hr]]; congruence.
  - split; [apply to_blame_is_unanswered|apply unanswered_is_to_blame].
  - intros reason. apply crash_is_nil_block.
Qed.

End HandlerFacts.

(** ** The response encoder *)

Section Encodings.

Local Open Scope N_scope.

Lemma land_shiftl_small (a b n : N) : b < 2 ^ n -> N.land (N.shiftl a n) b = 0.
Proof.
  intros Hb. apply N.bits_inj. intros k. rewrite N.land_spec, N.bits_0.
  destruct (N.lt_ge_cases k n) as [Hk|Hk].
  - by rewrite N.shiftl_spec_low.
  - destruct (N.eq_dec b 0) as [->|Hb0]; [by rewrite N.bits_0, andb_false_r|].
    rewrite (N.bits_above_log2 b k), andb_false_r; [done|].
    apply N.log2_lt_pow2; [lia|].
    eapply N.lt_le_trans; [exact Hb|]. by apply N.pow_le_mono_r.
Qed.

Lemma lor_shiftl (a b n : N) : b < 2 ^ n -> N.lor (N.shiftl a n) b = a * 2 ^ n + b.
Proof.
  intros Hb. rewrite <- N.lxor_lor, <- N.add_nocarry_lxor by by apply land_shiftl_small.
  by rewrite N.shiftl_mul_pow2.
Qed.

Lemma lor_aligned (x b n : N) : x mod 2 ^ n = 0 -> b < 2 ^ n -> N.lor x b = x + b.
Proof.
  intros Hx Hb.
  assert (Hpow : 2 ^ n <> 0) by (apply N.pow_nonzero; lia).
  assert (x = N.shiftl (x / 2 ^ n) n) as ->.
  { rewrite N.shiftl_mul_pow2. pose proof (N.div_mod x (2 ^ n) Hpow). lia. }
  rewrite lor_shiftl by done. by rewrite N.shiftl_mul_pow2.
Qed.

Ltac darith := zify; Z.to_euclidean_division_equations; lia.

Lemma group24_sum a b c :
  group24 a b c = Byte.to_N a * 65536 + Byte.to_N b * 256 + Byte.to_N c.
Proof.
  pose proof (Byte.to_N_bounded a). pose proof (Byte.to_N_bounded b).
  pose proof (Byte.to_N_bounded c).
  unfold group24. rewrite !N.shiftl_mul_pow2.
  change (2 ^ 16) with 65536. change (2 ^ 8) with 256.
  rewrite (lor_aligned (Byte.to_N a * 65536) (Byte.to_N b * 256) 16);
    change (2 ^ 16) with 65536; [|darith..].
  rewrite (lor_aligned _ (Byte.to_N c) 8); change (2 ^ 8) with 256; darith.
Qed.

(** Bit operations of the encoder and decoder as arithmetic. *)
Ltac bits_to_arith :=
  unfold sextet;
  change 63 with (N.ones 6); change 255 with (N.ones 8);
  change 15 with (N.ones 4); change 3 with (N.ones 2);
  rewrite ?N.land_ones, ?N.shiftr_div_pow2, ?N.shiftl_mul_pow2;
  change (2 ^ 0) with 1; change (2 ^ 2) with 4; change (2 ^ 4) with 16;
  change (2 ^ 6) with 64; change (2 ^ 8) with 256; change (2 ^ 10) with 1024;
  change (2 ^ 12) with 4096; change (2 ^ 16) with 65536; change (2 ^ 18) with 262144.

Lemma sextet_lt val shift : sextet val shift < 64.
Proof. bits_to_arith. darith. Qed.

Lemma regroup (i1 i2 i3 i4 : N) :
  i1 < 64 -> i2 < 64 -> i3 < 64 -> i4 < 64 ->
  N.lor (N.lor (N.lor (N.shiftl i1 18) (N.shiftl i2 12)) (N.shiftl i3 6)) i4 =
  i1 * 262144 + i2 * 4096 + i3 * 64 + i4.
Proof.
  intros. bits_to_arith.
  rewrite (lor_aligned (i1 * 262144) (i2 * 4096) 18); change (2 ^ 18) with 262144; [|darith..].
  rewrite (lor_aligned _ (i3 * 64) 12); change (2 ^ 12) with 4096; [|darith..].
  rewrite (lor_aligned _ i4 6); change (2 ^ 6) with 64; darith.
Qed.

Lemma byteOf_to_N (a : byte) (n : N) : n mod 256 = Byte.to_N a -> byteOf n = a.
Proof.
  intros H. unfold byteOf. change 255 with (N.ones 8). rewrite N.land_ones.
  change (2 ^ 8) with 256. by rewrite H, Byte.of_to_N.
Qed.

Lemma decode_group a b c :
  let val := group24 a b c in
  let val' := sextet val 18 * 262144 + sextet val 12 * 4096 + sextet val 6 * 64 + sextet val 0 in
  byteOf (N.shiftr val' 16) = a /\ byteOf (N.shiftr val' 8) = b /\ byteOf val' = c.
Proof.
  cbn zeta. rewrite group24_sum.
  pose proof (Byte.to_N_bounded a). pose proof (Byte.to_N_bounded b).
  pose proof (Byte.to_N_bounded c).
  repeat split; apply byteOf_to_N; bits_to_arith; darith.
Qed.

Lemma stdChar_facts i :
  i < 64 ->
  stdIndex (stdChar i) = Some i /\ Ascii.eqb (stdChar i) padChar = false /\
  plainChar (stdChar i).
Proof.
  intros Hi.
  set (check := fun i =>
    match stdIndex (stdChar i) with Some j => N.eqb j i | None => false end
    && negb (Ascii.eqb (stdChar i) padChar)
    && negb (Ascii.eqb (stdChar i) lineFeed)
    && negb (Ascii.eqb (stdChar i) "-"%char)).
  assert (Hall : forallb check (map N.of_nat (seq 0 64)) = true) by (vm_compute; reflexivity).
  rewrite forallb_forall in Hall. specialize (Hall i).
  unfold check in Hall.
  destruct (stdIndex (stdChar i)) as [j|].
  - rewrite !andb_true_iff, !negb_true_iff, N.eqb_eq in Hall.
    destruct Hall as [[[-> Hpad] Hlf] Hdash].
    + apply in_map_iff. exists (N.to_nat i). split; [lia|]. apply in_seq. lia.
    + repeat split; [done|by apply Ascii.eqb_neq..].
  - discriminate Hall.
    apply in_map_iff. exists (N.to_nat i). split; [lia|]. apply in_seq. lia.
Qed.

Lemma list_ind3 {A} (P : list A -> Prop) :
  P [] -> (forall a, P [a]) -> (forall a b, P [a; b]) ->
  (forall a b c l, P l -> P (a :: b :: c :: l)) ->
  forall l, P l.
Proof.
  intros H0 H1 H2 H3 l.
  assert (H : P l /\ (forall a, P (a :: l)) /\ (forall a b, P (a :: b :: l))).
  { induction l as [|x l (IH0 & IH1 & IH2)]; [by auto|].
    split; [apply IH1|]. split; [intros a; apply IH2|]. intros a b. by apply H3. }
  apply H.
Qed.

Arguments stdIndex : simpl never.
Arguments stdChar : simpl never.
Arguments byteOf : simpl never.
Arguments sextet : simpl never.
Arguments group24 : simpl never.

Lemma decode_quad i1 i2 i3 i4 rest :
  i1 < 64 -> i2 < 64 -> i3 < 64 -> i4 < 64 ->
  base64_DecodeString
    (String (stdChar i1) (String (stdChar i2) (String (stdChar i3) (String (stdChar i4) rest)))) =
  match base64_DecodeString rest with
  | Some tail =>
      let val := i1 * 262144 + i2 * 4096 + i3 * 64 + i4 in
      Some (byteOf (N.shiftr val 16) :: byteOf (N.shiftr val 8) :: byteOf val :: tail)
  | None => None
  end.
Proof.
  intros H1 H2 H3 H4.
  destruct (stdChar_facts i1 H1) as (E1 & _ & _).
  destruct (stdChar_facts i2 H2) as (E2 & _ & _).
  destruct (stdChar_facts i3 H3) as (E3 & P3 & _).
  destruct (stdChar_facts i4 H4) as (E4 & P4 & _).
  cbn [base64_DecodeString]. rewrite E1, E2, P3, E3, P4, E4.
  by rewrite regroup.
Qed.

Lemma base64_roundtrip (l : list byte) :
  base64_DecodeString (base64_EncodeToString l) = Some l.
Proof.
  induction l as [|a|a b|a b c l IH] using list_ind3.
  - done.
  - cbn [base64_EncodeToString].
    set (val := N.shiftl (Byte.to_N a) 16).
    destruct (stdChar_facts (sextet val 18) (sextet_lt _ _)) as (E1 & _ & _).
    destruct (stdChar_facts (sextet val 12) (sextet_lt _ _)) as (E2 & _ & _).
    cbn [base64_DecodeString]. rewrite E1, E2. cbn.
    pose proof (Byte.to_N_bounded a).
    assert (N.land (sextet val 12) 15 = 0) as ->.
    { subst val. bits_to_arith. darith. }
    cbn. do 2 f_equal. apply byteOf_to_N.
    rewrite lor_shiftl by apply sextet_lt. subst val. bits_to_arith. darith.
  - cbn [base64_EncodeToString].
    set (val := N.lor (N.shiftl (Byte.to_N a) 16) (N.shiftl (Byte.to_N b) 8)).
    pose proof (Byte.to_N_bounded a). pose proof (Byte.to_N_bounded b).
    assert (Hval : val = Byte.to_N a * 65536 + Byte.to_N b * 256).
    { subst val. rewrite !N.shiftl_mul_pow2. change (2 ^ 16) with 65536. change (2 ^ 8) with 256.
      rewrite (lor_aligned _ _ 16); change (2 ^ 16) with 65536; darith. }
    destruct (stdChar_facts (sextet val 18) (sextet_lt _ _)) as (E1 & _ & _).
    destruct (stdChar_facts (sextet val 12) (sextet_lt _ _)) as (E2 & _ & _).
    destruct (stdChar_facts (sextet val 6) (sextet_lt _ _)) as (E3 & P3 & _).
    cbn [base64_DecodeString]. rewrite E1, E2, P3, E3. cbn.
    assert (N.land (sextet val 6) 3 = 0) as ->.
    { rewrite Hval. bits_to_arith. darith. }
    cbn.
    assert (Hre : N.lor (N.lor (N.shiftl (sextet val 18) 12) (N.shiftl (sextet val 12) 6))
                        (sextet val 6) =
                  sextet val 18 * 4096 + sextet val 12 * 64 + sextet val 6).
    { pose proof (sextet_lt val 18). pose proof (sextet_lt val 12).
      pose proof (sextet_lt val 6).
      rewrite !N.shiftl_mul_pow2. change (2 ^ 12) with 4096. change (2 ^ 6) with 64.
      rewrite (lor_aligned (sextet val 18 * 4096) _ 12); change (2 ^ 12) with 4096; [|darith..].
      rewrite (lor_aligned _ _ 6); change (2 ^ 6) with 64; darith. }
    rewrite Hre, Hval.
    do 2 f_equal; [|f_equal]; apply byteOf_to_N; bits_to_arith; darith.
  - cbn [base64_EncodeToString].
    rewrite decode_quad by apply sextet_lt. rewrite IH. cbn zeta.
    destruct (decode_group a b c) as (-> & -> & ->). done.
Qed.

Lemma padChar_plain : plainChar padChar.
Proof. split; discriminate. Qed.

Lemma base64_plain (l : list byte) : allChars plainChar (base64_EncodeToString l).
Proof.
  induction l as [|a|a b|a b c l IH] using list_ind3; cbn [base64_EncodeToString allChars].
  - done.
  - repeat split; try apply padChar_plain; apply stdChar_facts, sextet_lt.
  - repeat split; try apply padChar_plain; apply stdChar_facts, sextet_lt.
  - repeat split; try apply IH; apply stdChar_facts, sextet_lt.
Qed.

Lemma base64_length (l : list byte) :
  String.length (base64_EncodeToString l) = (4 * ((length l + 2) / 3))%nat.
Proof.
  induction l as [|a|a b|a b c l IH] using list_ind3; cbn [base64_EncodeToString]; try done.
  cbn [String.length length]. rewrite IH.
  replace (S (S (S (length l))) + 2)%nat with (length l + 2 + 1 * 3)%nat by lia.
  rewrite Nat.div_add by lia. lia.
Qed.

Lemma dropLineFeeds_lineBreaker (s : string) : forall used,
  allChars plainChar s -> dropLineFeeds (lineBreaker used s) = s.
Proof.
  induction s as [|c s IH]; intros used Hs; cbn [lineBreaker].
  - by destruct used.
  - destruct Hs as [[Hc _] Hs]. apply Ascii.eqb_neq in Hc.
    destruct (S used =? pemLineLength)%nat; cbn [dropLineFeeds].
    + fold lineFeed. rewrite Hc. f_equal.
      change (nl +:+ lineBreaker 0 s) with (String lineFeed (lineBreaker 0 s)).
      cbn [dropLineFeeds]. fold lineFeed. rewrite Ascii.eqb_refl. by apply IH.
    + fold lineFeed. rewrite Hc. f_equal. by apply IH.
Qed.

Lemma lineBreaker_no_dash (s : string) : forall used,
  allChars plainChar s -> allChars (fun c => c <> "-"%char) (lineBreaker used s).
Proof.
  induction s as [|c s IH]; intros used Hs; cbn [lineBreaker].
  - by destruct used.
  - destruct Hs as [[_ Hc] Hs].
    destruct (S used =? pemLineLength)%nat.
    + change (nl +:+ lineBreaker 0 s) with (String lineFeed (lineBreaker 0 s)).
      cbn [allChars]. repeat split; [done|discriminate|by apply IH].
    + cbn [allChars]. split; [done|by apply IH].
Qed.

(** C9. For every signed byte sequence: when DER is requested the
    response text is the standard padded base64 text of the bytes (four
    characters for every three bytes begun, decoding back to the bytes);
    otherwise it is one PEM block of type "X509 CRL": the BEGIN line, the
    base64 text of the bytes broken into lines of 64 characters, and the
    END line, with no dash inside the body, so that the body without its
    line feeds decodes back to the bytes. *)
Theorem encodeResponse_formats (crlBytes : list byte) :
  encodeResponse crlBytes true = base64_EncodeToString crlBytes /\
  base64_DecodeString (encodeResponse crlBytes true) = Some crlBytes /\
  String.length (encodeResponse crlBytes true) = (4 * ((length crlBytes + 2) / 3))%nat /\
  exists body,
    encodeResponse crlBytes false =
      "-----BEGIN X509 CRL-----" +:+ nl +:+ body +:+ "-----END X509 CRL-----" +:+ nl /\
    body = lineBreaker 0 (base64_EncodeToString crlBytes) /\
    allChars (fun c => c <> "-"%char) body /\
    base64_DecodeString (dropLineFeeds body) = Some crlBytes.
Proof.
  split; [done|]. split; [apply base64_roundtrip|]. split; [apply base64_length|].
  exists (lineBreaker 0 (base64_EncodeToString crlBytes)).
  split; [|split; [done|split]].
  - unfold encodeResponse, pem_EncodeToMemory. cbn [Type_ Bytes].
    rewrite string_of_list_byte_of_string. unfold pemStart, pemEnd.
    by rewrite !append_assoc.
  - apply lineBreaker_no_dash, base64_plain.
  - rewrite dropLineFeeds_lineBreaker by apply base64_plain. apply base64_roundtrip.
Qed.

Lemma pem_response (crlBytes : list byte) :
  encodeResponse crlBytes false =
    pemStart "X509 CRL" +:+ lineBreaker 0 (base64_EncodeToString crlBytes)
    +:+ pemEnd "X509 CRL".
Proof.
  unfold encodeResponse, pem_EncodeToMemory. cbn [Type_ Bytes].
  apply string_of_list_byte_of_string.
Qed.

(** X16. The response text determines the signed bytes: in either format
    two byte sequences with the same text are equal, and a base64 answer
    is never mistaken for a PEM answer. *)
Theorem response_text_determines_bytes :
  (forall crlBytes crlBytes' der,
     encodeResponse crlBytes der = encodeResponse crlBytes' der -> crlBytes = crlBytes') /\
  (forall crlBytes crlBytes', encodeResponse crlBytes true <> encodeResponse crlBytes' false).
Proof.
  split.
  - intros b b' [|] H.
    + apply (f_equal base64_DecodeString) in H.
      change (encodeResponse b true) with (base64_EncodeToString b) in H.
      change (encodeResponse b' true) with (base64_EncodeToString b') in H.
      rewrite !base64_roundtrip in H. congruence.
    + rewrite !pem_response in H.
      apply String.app_inj, append_cancel_r in H.
      apply (f_equal dropLineFeeds) in H.
      rewrite !dropLineFeeds_lineBreaker in H by apply base64_plain.
      apply (f_equal base64_DecodeString) in H.
      rewrite !base64_roundtrip in H. congruence.
  - intros b b' H. rewrite pem_response in H.
    change (encodeResponse b true) with (base64_EncodeToString b) in H.
    pose proof (base64_plain b) as Hplain. rewrite H in Hplain.
    destruct Hplain as [[_ Hdash] _]. by apply Hdash.
Qed.

End Encodings.

(** ** The properties at work on the test doubles *)

(** C2: the second of two lists bears another signer's tag. *)
Lemma unsigned_crl_witness :
  let data := Double.request [Double.pemCrl 7 [(100, 3)]; Double.pemCrl 8 [(100, 2)]]
                "pem" (-1) in
  @pathUpdateResignCrlsHandler Double.healthy data =
    ([Call_getCrlFormat "pem"; Call_ParseDuration "1h"; Call_decodePemCrls;
      Call_getCaBundle "default"; Call_verifyCrlsAreFromIssuersKey],
     Respond (ErrorResponse "CRL index: 1 was not signed by requested issuer")).
Proof.
  pose (data := Double.request [Double.pemCrl 7 [(100, 3)]; Double.pemCrl 8 [(100, 2)]]
                  "pem" (-1)).
  pose (decoded := match @decodePemCrls Double.healthy (crls data) with
                   | Done (Ok l) => l
                   | _ => []
                   end).
  refine (proj1 (@unsigned_crl_aborts Double.healthy data "pem" 3600000000000
                   decoded Double.issuerBundle 1 _ _ _)).
  - split; vm_compute; first [reflexivity | discriminate].
  - split; vm_compute; reflexivity.
  - split.
    + eexists _, _. split; vm_compute; reflexivity.
    + intros j crl Hj Hcrl. destruct j as [|j]; [|lia].
      vm_compute in Hcrl. injection Hcrl as <-. vm_compute. reflexivity.
Defined.

(** C3: an empty string after a well-formed list. *)
Lemma empty_crl_text_witness :
  let data := Double.request [Double.pemCrl 7 [(100, 3)]; ""] "pem" (-1) in
  @pathUpdateResignCrlsHandler Double.healthy data =
    ([Call_getCrlFormat "pem"; Call_ParseDuration "1h"; Call_decodePemCrls],
     Crash "invalid memory address or nil pointer dereference").
Proof.
  pose (data := Double.request [Double.pemCrl 7 [(100, 3)]; ""] "pem" (-1)).
  pose (decoded := match @decodePemCrls Double.healthy [Double.pemCrl 7 [(100, 3)]] with
                   | Done (Ok l) => l
                   | _ => []
                   end).
  refine (proj2 (@empty_crl_text_panics Double.healthy data "pem" 3600000000000
                   [Double.pemCrl 7 [(100, 3)]] [] decoded _ _ _ _)).
  - split; vm_compute; first [reflexivity | discriminate].
  - vm_compute. reflexivity.
  - reflexivity.
  - vm_compute. reflexivity.
Defined.

(** C4: the token "xml". *)
Lemma unknown_format_witness :
  let data := Double.request [Double.pemCrl 7 [(100, 3)]] "xml" (-1) in
  @pathUpdateResignCrlsHandler Double.healthy data =
    ([Call_getCrlFormat "xml"],
     Respond (ErrorResponse "unknown format value of xml")).
Proof.
  refine (proj1 (proj1 (@unknown_format_fails_fast Double.healthy
            (Double.request [Double.pemCrl 7 [(100, 3)]] "xml" (-1))) _)).
  intros H%list_elem_of_In. vm_compute in H. intuition discriminate.
Defined.


(** C7: a signer that fails, an encoder that fails, and a request the
    caller is to blame for that is not answered: an empty text after a
    well-formed list. *)
Lemma failures_classified_witness :
  (@pathUpdateResignCrlsHandler (Double.externals false false true insertionOrder)
     (Double.request [Double.pemCrl 7 [(100, 3)]] "pem" (-1))).2 =
    Fail ("error creating new CRL: " +:+
          "x509: requested SignatureAlgorithm does not match private key type") /\
  (@pathUpdateResignCrlsHandler (Double.externals false true false insertionOrder)
     (Double.request [Double.pemCrl 7 [(100, 3)]] "pem" 3)).2 =
    Fail ("could not create crl delta indicator extension: " +:+ "asn1: structure error") /\
  @ValidationFailure Double.healthy
    (Double.request [Double.pemCrl 7 [(100, 3)]; ""] "pem" (-1)) /\
  (@pathUpdateResignCrlsHandler Double.healthy
     (Double.request [Double.pemCrl 7 [(100, 3)]; ""] "pem" (-1))).2 =
    Crash "invalid memory address or nil pointer dereference".
Proof.
  pose (decodedBy := fun ext : Externals =>
          match @decodePemCrls ext [Double.pemCrl 7 [(100, 3)]] with
          | Done (Ok l) => l
          | _ => []
          end).
  split; [|split; [|split]].
  - pose (signerDown := Double.externals false false true insertionOrder).
    apply (proj2 (proj1 (@failures_are_classified signerDown _) _)).
    apply (@signing_failure signerDown _ 3600000000000 (decodedBy signerDown)
             Double.issuerBundle []).
    + apply Accepted_checks. split.
      * exists "pem". split; vm_compute; first [reflexivity | discriminate].
      * repeat split; vm_compute; reflexivity.
    + left. split; reflexivity.
    + vm_compute. reflexivity.
  - pose (encoderDown := Double.externals false true false insertionOrder).
    apply (proj2 (proj1 (@failures_are_classified encoderDown _) _)).
    apply (@extension_failure encoderDown _ 3600000000000 (decodedBy encoderDown)
             Double.issuerBundle).
    + apply Accepted_checks. split.
      * exists "pem". split; vm_compute; first [reflexivity | discriminate].
      * repeat split; vm_compute; reflexivity.
    + vm_compute. discriminate.
    + vm_compute. reflexivity.
  - apply (@malformed_crl Double.healthy _ "").
    + apply list_elem_of_In. right. left. reflexivity.
    + intros crl (block & Hpem & _). vm_compute in Hpem. discriminate Hpem.
  - apply (proj2 (proj2 (proj2 (proj2 (@failures_are_classified Double.healthy _))) _)).
    split.
    + exists "pem", 3600000000000. split; vm_compute; first [reflexivity | discriminate].
    + vm_compute. reflexivity.
Defined.

(** C10: no list at all, DER requested. *)
Lemma empty_input_witness :
  exists log template,
    @pathUpdateResignCrlsHandler Double.healthy (Double.request [] "DER" 3) =
      (log, Respond (CrlResponse [] "Bw==")) /\
    Call_CreateRevocationList template ∈ log /\
    RevokedCertificates template = [] /\
    Number template = 5.
Proof.
  pose (signed := fun t =>
          match Double.createRevocationList false t Double.issuerCert Double.issuerKey with
          | Ok crlBytes => crlBytes
          | Err _ => []
          end).
  destruct (@empty_input_resigns Double.healthy (Double.request [] "DER" 3)
              "der" 3600000000000 Double.issuerBundle signed)
    as (_ & _ & _ & log & template & Hrun & Hin & Hnone & Hnumber).
  - split; vm_compute; first [reflexivity | discriminate].
  - reflexivity.
  - reflexivity.
  - intros n. eexists. reflexivity.
  - intros t. reflexivity.
  - exists log, template. repeat split; try assumption.
    rewrite Hrun. unfold signed, Double.createRevocationList.
    rewrite Hnone. reflexivity.
Defined.

(** * Properties of the Cassandra helpers *)

Module CassandraFacts.
Import Cassandra.

(** ** Splitting the hosts *)

Lemma Split_not_nil s sep : strings_Split s sep <> [].
Proof.
  induction s as [|c s IH]; cbn; [done|].
  destruct (Ascii.eqb c sep); [done|]. by destruct (strings_Split s sep).
Qed.

Lemma Split_join s sep :
  String.concat (String sep EmptyString) (strings_Split s sep) = s.
Proof.
  induction s as [|c s IH]; [done|]. cbn [strings_Split].
  destruct (Ascii.eqb_spec c sep) as [->|Hc].
  - pose proof (Split_not_nil s sep).
    destruct (strings_Split s sep) as [|p ps] eqn:Hs; [done|].
    change (String sep (String.concat (String sep EmptyString) (p :: ps)) = String sep s).
    by rewrite IH.
  - pose proof (Split_not_nil s sep).
    destruct (strings_Split s sep) as [|p ps] eqn:Hs; [done|].
    destruct ps as [|q ps].
    + cbn in IH |- *. by rewrite IH.
    + change (String c (String.concat (String sep EmptyString) (p :: q :: ps)) = String c s).
      by rewrite IH.
Qed.

Lemma Split_pieces s sep :
  Forall (allChars (fun c => c <> sep)) (strings_Split s sep).
Proof.
  induction s as [|c s IH]; cbn [strings_Split]; [by repeat constructor|].
  destruct (Ascii.eqb_spec c sep) as [->|Hc].
  - by constructor.
  - destruct (strings_Split s sep) as [|p ps]; [by repeat constructor|].
    apply Forall_cons in IH as [Hp Hps]. by repeat constructor.
Qed.

Lemma nonEmpty_true s : nonEmpty s = true <-> s <> "".
Proof. destruct s; cbn; split; done. Qed.

Lemma nonEmpty_false s : nonEmpty s = false <-> s = "".
Proof. destruct s; cbn; split; done. Qed.

Lemma wrap64_id z : - 2 ^ 63 <= z < 2 ^ 63 <-> wrap64 z = z.
Proof.
  unfold wrap64. change (2 ^ 63) with 9223372036854775808.
  change (2 ^ 64) with 18446744073709551616.
  split; intros H; Z.div_mod_to_equations; lia.
Qed.

(** ** [createSession] *)

Section ConnectionFacts.

Context {driver : Driver}.

(** Opens [createSession] along all its branches. *)
Ltac branches :=
  unfold createSession, gocql_NewCluster; cbn [ProtoVersion ClusterHosts Authenticator
    Timeout SslOpts InsecureSkipVerify MinVersion tlsMaterial];
  repeat case_match; simplify_eq; cbn [fst snd].

Ltac in_net H :=
  repeat (apply elem_of_cons in H as [H|H]; [try discriminate H|]);
  try (apply elem_of_nil in H; contradiction H).

Lemma connected_settings cfg cluster :
  Net_CreateSession cluster ∈ (createSession cfg).1 ->
  ClusterHosts cluster = strings_Split (Hosts cfg) "," /\
  Authenticator cluster = Some (Username cfg, Password cfg) /\
  ProtoVersion cluster = (if ProtocolVersion cfg =? 0 then 2 else ProtocolVersion cfg) /\
  Timeout cluster = wrap64 (wrap64 (ConnectTimeout cfg) * time_Second).
Proof.
  branches; intros Hin; in_net Hin; injection Hin as ->; cbn; repeat split; try done.
Qed.

(** Turns what is known about the tests of [createSession] into
    statements about the fields. *)
Ltac tests :=
  repeat match goal with
         | H : _ || _ = true |- _ => apply orb_true_iff in H
         | H : _ || _ = false |- _ => apply orb_false_iff in H as [? ?]
         | H : _ && _ = true |- _ => apply andb_true_iff in H as [? ?]
         | H : _ && _ = false |- _ => apply andb_false_iff in H
         | H : negb _ = true |- _ => apply negb_true_iff in H
         | H : negb _ = false |- _ => apply negb_false_iff in H
         | H : nonEmpty _ = true |- _ => apply nonEmpty_true in H
         | H : nonEmpty _ = false |- _ => apply nonEmpty_false in H
         | H : String.eqb _ _ = true |- _ => apply String.eqb_eq in H
         | H : String.eqb _ _ = false |- _ => apply String.eqb_neq in H
         | H : true = false |- _ => discriminate H
         | H : false = true |- _ => discriminate H
         | H : @eq bool _ _ \/ _ |- _ => destruct H
         | H : (_ =? _) = true |- _ => apply Z.eqb_eq in H
         | H : (_ =? _) = false |- _ => apply Z.eqb_neq in H
         end.

(** X18. Whatever [createSession] connects with names the hosts and the
    credentials of the configuration and never protocol version 0: an
    unset version is replaced by 2, any other is passed on. *)
Theorem protocol_version_never_zero cfg cluster :
  Net_CreateSession cluster ∈ (createSession cfg).1 ->
  ClusterHosts cluster = strings_Split (Hosts cfg) "," /\
  Authenticator cluster = Some (Username cfg, Password cfg) /\
  ProtoVersion cluster <> 0 /\
  (ProtocolVersion cfg <> 0 -> ProtoVersion cluster = ProtocolVersion cfg) /\
  (ProtocolVersion cfg = 0 -> ProtoVersion cluster = 2).
Proof.
  intros (-> & -> & -> & _)%connected_settings.
  destruct (Z.eqb_spec (ProtocolVersion cfg) 0); repeat split; done || lia.
Qed.

(** X19. How TLS is configured on the cluster [createSession] connects
    with: no SSL options without [TLS]; SSL options without a
    [tls.Config] when neither a certificate nor an issuing CA is given
    (then [InsecureTLS] and [TLSMinVersion] play no part); otherwise a
    [tls.Config] that takes [InsecureTLS] as it is and the looked-up
    [TLSMinVersion], or 0 when none is named, and a certificate comes
    with its private key. *)
Theorem tls_options cfg cluster :
  Net_CreateSession cluster ∈ (createSession cfg).1 ->
  (TLS cfg = false -> SslOpts cluster = None) /\
  (TLS cfg = true -> Certificate cfg = "" -> IssuingCA cfg = "" ->
   SslOpts cluster = Some None) /\
  (TLS cfg = true -> Certificate cfg <> "" \/ IssuingCA cfg <> "" ->
   exists tlsConfig,
     SslOpts cluster = Some (Some tlsConfig) /\
     InsecureSkipVerify tlsConfig = InsecureTLS cfg /\
     (TLSMinVersion cfg = "" -> MinVersion tlsConfig = 0) /\
     (TLSMinVersion cfg <> "" ->
      TLSLookup !! TLSMinVersion cfg = Some (MinVersion tlsConfig)) /\
     (Certificate cfg <> "" -> PrivateKey cfg <> "")).
Proof.
  branches; intros Hin; in_net Hin; injection Hin as ->; cbn; tests.
  all: repeat split; try congruence; try (intuition congruence).
  all: intros; eexists; repeat split; try reflexivity; cbn; try congruence; try (intuition congruence).
Qed.

(** X20. A session is handed out only after the cluster was connected
    to and LIST USERS succeeded on it; a failure of either is reported
    behind its own prefix, and LIST USERS is not tried on a failed
    connection. *)
Theorem session_only_after_validation cfg :
  (forall session, (createSession cfg).2 = Ok session ->
     exists cluster,
       (createSession cfg).1 = [Net_CreateSession cluster; Net_Exec "LIST USERS"] /\
       CreateSession cluster = Ok session /\
       Exec session "LIST USERS" = None) /\
  (forall cluster, Net_CreateSession cluster ∈ (createSession cfg).1 ->
     (forall e, CreateSession cluster = Err e ->
        createSession cfg =
          ([Net_CreateSession cluster], Err ("error creating session: " +:+ e))) /\
     (forall session e, CreateSession cluster = Ok session ->
        Exec session "LIST USERS" = Some e ->
        createSession cfg =
          ([Net_CreateSession cluster; Net_Exec "LIST USERS"],
           Err ("error validating connection info: " +:+ e)))).
Proof.
  split.
  - intros session. branches; intros [= <-]; eexists; repeat split; done.
  - intros cluster. branches; intros Hin; in_net Hin; injection Hin as ->.
    all: split; [intros e' He'|intros s' e' Hs' He']; congruence.
Qed.

(** X21. TLS material is checked before anything reaches the network: a
    certificate without a private key and a [TLSMinVersion] that is not
    in the table are refused without a connection attempt, and a call
    that made no connection attempt is a refused TLS set-up. *)
Theorem tls_failures_precede_connection cfg :
  (TLS cfg = true -> Certificate cfg <> "" -> PrivateKey cfg = "" ->
   createSession cfg =
     ([], Err "found certificate for TLS authentication but no private key")) /\
  (TLS cfg = true -> Certificate cfg <> "" \/ IssuingCA cfg <> "" ->
   TLSMinVersion cfg <> "" -> TLSLookup !! TLSMinVersion cfg = None ->
   (createSession cfg).1 = [] /\ exists e, (createSession cfg).2 = Err e) /\
  ((createSession cfg).1 = [] ->
   TLS cfg = true /\ (Certificate cfg <> "" \/ IssuingCA cfg <> "") /\
   exists e, (createSession cfg).2 = Err e).
Proof.
  split; [|split].
  - intros Htls Hcert%nonEmpty_true Hkey%nonEmpty_false.
    unfold createSession. by rewrite Htls, Hcert, Hkey.
  - intros Htls Hsome Hmin Hlookup. branches; tests; try congruence; try tauto.
    all: split; [done|by eexists].
  - branches; tests; intros [=]; repeat split; eauto.
Qed.

(** X22. The connection timeout is [ConnectTimeout] seconds exactly
    when [ConnectTimeout] is between -9223372036 and 9223372036; beyond
    that the 64-bit product wraps around. *)
Theorem connect_timeout_in_seconds cfg cluster :
  Net_CreateSession cluster ∈ (createSession cfg).1 ->
  - 2 ^ 63 <= ConnectTimeout cfg < 2 ^ 63 ->
  (Timeout cluster = ConnectTimeout cfg * 1000000000 <->
   -9223372036 <= ConnectTimeout cfg <= 9223372036) /\
  - 2 ^ 63 <= Timeout cluster < 2 ^ 63.
Proof.
  intros (_ & _ & _ & ->)%connected_settings Hrange.
  rewrite (proj1 (wrap64_id _) Hrange). unfold time_Second. split.
  - rewrite <- wrap64_id.
    change (2 ^ 63) with 9223372036854775808. lia.
  - unfold wrap64. change (2 ^ 63) with 9223372036854775808.
    change (2 ^ 64) with 18446744073709551616. Z.div_mod_to_equations. lia.
Qed.

(** X23. The hosts connected to are the pieces of [Hosts] between its
    commas: joined by commas they give [Hosts] back, none holds a comma,
    and there is always at least one, the empty name for an empty
    [Hosts]. *)
Theorem hosts_are_the_comma_separated_pieces cfg cluster :
  Net_CreateSession cluster ∈ (createSession cfg).1 ->
  String.concat "," (ClusterHosts cluster) = Hosts cfg /\
  Forall (allChars (fun c => c <> ","%char)) (ClusterHosts cluster) /\
  ClusterHosts cluster <> [] /\
  (Hosts cfg = "" -> ClusterHosts cluster = [""]).
Proof.
  intros (-> & _)%connected_settings. repeat split.
  - apply Split_join.
  - apply Split_pieces.
  - apply Split_not_nil.
  - by intros ->.
Qed.

End ConnectionFacts.

(** ** [substQuery] *)

Lemma prefix_placeholder k s :
  String.prefix (placeholder k) s = true -> ~ noPlaceholder s.
Proof.
  change (placeholder k) with (String "{" (String "{" (k +:+ "}}"))).
  destruct s as [|c1 [|c2 s]]; cbn [String.prefix]; try done.
  - destruct (ascii_dec "{" c1); done.
  - destruct (ascii_dec "{" c1) as [<-|]; [|done].
    destruct (ascii_dec "{" c2) as [<-|]; [|done]. intros _ H. exact H.
Qed.

Lemma noPlaceholder_tail c s : noPlaceholder (String c s) -> noPlaceholder s.
Proof.
  cbn. destruct c as [[] [] [] [] [] [] [] []]; try done.
  destruct s as [|d s]; [done|].
  destruct d as [[] [] [] [] [] [] [] []]; done.
Qed.

Lemma replace_nothing s k v :
  noPlaceholder s -> strings_ReplaceAll s (placeholder k) v = s.
Proof.
  unfold strings_ReplaceAll. induction s as [|c s IH]; intros Hs; [done|].
  cbn [replaceFrom].
  destruct (String.prefix (placeholder k) (String c s)) eqn:Hp.
  - by apply prefix_placeholder in Hp.
  - f_equal. apply IH. by apply noPlaceholder_tail in Hs.
Qed.

(** X24. A template without [{{] comes back unchanged, whatever the data
    and the order in which the map is ranged over. *)
Theorem template_without_placeholder_unchanged (order : EntryOrder) tpl data :
  noPlaceholder tpl -> substQuery order tpl data = tpl.
Proof.
  intros Htpl. unfold substQuery.
  induction (order (map_to_list data)) as [|[k v] l IH]; [done|].
  cbn [fold_left fst snd]. by rewrite replace_nothing.
Qed.

Lemma prefix_append a t : String.prefix a (a +:+ t) = true.
Proof.
  induction a as [|c a IH]; [by destruct t|].
  change (String c a +:+ t) with (String c (a +:+ t)). cbn [String.prefix].
  by destruct (ascii_dec c c).
Qed.

Lemma replace_skips a t old new :
  replaceFrom (String.length a) (a +:+ t) old new = replaceFrom 0 t old new.
Proof.
  induction a as [|c a IH]; [done|].
  change (String c a +:+ t) with (String c (a +:+ t)). cbn [String.length replaceFrom].
  apply IH.
Qed.

Lemma replace_after_plain pre t k v :
  noBrace pre ->
  strings_ReplaceAll (pre +:+ t) (placeholder k) v =
  pre +:+ strings_ReplaceAll t (placeholder k) v.
Proof.
  unfold strings_ReplaceAll. induction pre as [|c pre IH]; intros Hpre; [done|].
  destruct Hpre as [Hc Hpre].
  change (String c pre +:+ t) with (String c (pre +:+ t)). cbn [replaceFrom].
  change (placeholder k) with (String "{" (String "{" (k +:+ "}}"))) at 1.
  cbn [String.prefix]. destruct (ascii_dec "{" c) as [<-|_]; [done|].
  change (String c pre +:+ replaceFrom 0 t (placeholder k) v)
    with (String c (pre +:+ replaceFrom 0 t (placeholder k) v)).
  f_equal. by apply IH.
Qed.

Lemma replace_here k v post :
  strings_ReplaceAll (placeholder k +:+ post) (placeholder k) v =
  v +:+ strings_ReplaceAll post (placeholder k) v.
Proof.
  unfold strings_ReplaceAll.
  set (old := placeholder k).
  assert (Hold : old = String "{" (String "{" (k +:+ "}}"))) by done.
  pose proof (prefix_append old post) as Hp.
  rewrite Hold at 1. rewrite Hold in Hp at 2.
  change (String "{" (String "{" (k +:+ "}}")) +:+ post)
    with (String "{" (String "{" (k +:+ "}}") +:+ post)) in Hp |- *.
  cbn [replaceFrom]. rewrite Hp. f_equal.
  replace (String.length old - 1)%nat with (String.length (String "{" (k +:+ "}}"))).
  - apply replace_skips.
  - rewrite Hold. cbn [String.length]. lia.
Qed.

(** X25. A placeholder between a text without braces and a text without
    [{{] is replaced by the value of its key, and the value is not
    searched for placeholders again. *)
Theorem single_placeholder_replaced (order : EntryOrder) pre k v post :
  noBrace pre -> noPlaceholder post ->
  substQuery order (pre +:+ placeholder k +:+ post) {[ k := v ]} = pre +:+ v +:+ post.
Proof.
  intros Hpre Hpost. unfold substQuery.
  rewrite map_to_list_singleton.
  rewrite (proj1 (Permutation_singleton_r _ _) (ranged_perm order _)).
  cbn [fold_left fst snd].
  by rewrite replace_after_plain, replace_here, replace_nothing.
Qed.

End CassandraFacts.

(** * The further properties at work on the test doubles *)

Lemma pemDecode_hands_input_back data rest :
  Double.pemDecode data = (None, rest) -> rest = data.
Proof. unfold Double.pemDecode. repeat case_match; by intros [= <-]. Qed.

(** X3: the template signed for one list and base number 3. *)
Lemma signer_called_witness :
  exists fmt d providedCrls caBundle,
    @FieldsValid Double.healthy (Double.request [Double.pemCrl 7 [(100, 3)]] "der" 3) fmt d /\
    @Decoded Double.healthy (Double.request [Double.pemCrl 7 [(100, 3)]] "der" 3)
      providedCrls caBundle /\
    Forall (fun crl => Double.checkSignatureFrom crl (bundleCertificate caBundle) = None)
           providedCrls.
Proof.
  pose (data := Double.request [Double.pemCrl 7 [(100, 3)]] "der" 3).
  pose (template :=
    {| RawTBSRevocationList := []; Signature := []; SignatureAlgorithm := 4;
       RevokedCertificates := [clearExtensions (Double.revoked 100 3)];
       Number := 5;
       ThisUpdate := {| unixNano := 1000; location := "Local" |};
       NextUpdate := {| unixNano := 3600000001000; location := "Local" |};
       ExtraExtensions :=
         [ {| Id := [2; 5; 29; 27]; Critical := true; Value := [2; 1; 3] |} ] |}).
  assert (Hin : Call_CreateRevocationList template
                ∈ (@pathUpdateResignCrlsHandler Double.healthy data).1).
  { apply list_elem_of_In. vm_compute. repeat first [left; reflexivity | right]. }
  destruct (@signer_called_only_when_authenticated Double.healthy data template Hin)
    as (fmt & d & providedCrls & caBundle & Hvalid & Hdecoded & Hall & _).
  by exists fmt, d, providedCrls, caBundle.
Defined.

(** X4: the answer to the same request. *)
Lemma successful_answer_witness :
  exists template crlBytes,
    Call_CreateRevocationList template
      ∈ (@pathUpdateResignCrlsHandler Double.healthy
           (Double.request [Double.pemCrl 7 [(100, 3)]] "DER" (-1))).1 /\
    Number template = 5 /\
    unixNano (NextUpdate template) - unixNano (ThisUpdate template) = 3600000000000 /\
    "B2QD" = encodeResponse crlBytes true.
Proof.
  pose (data := Double.request [Double.pemCrl 7 [(100, 3)]] "DER" (-1)).
  destruct (@successful_answer_contents Double.healthy data [] "B2QD")
    as (fmt & d & providedCrls & caBundle & template & crlBytes & Hvalid & _ & Hin & _
        & Hnumber & _ & _ & Hnext & _ & _ & Hbody).
  { vm_compute. reflexivity. }
  exists template, crlBytes. split; [exact Hin|]. split; [exact Hnumber|].
  split; [|exact Hbody].
  rewrite Hnext. destruct Hvalid as [_ _ Hd _ _ _ _]. vm_compute in Hd. congruence.
Defined.

(** X5: a text that is no PEM block. *)
Lemma decoding_gate_witness :
  @pathUpdateResignCrlsHandler Double.healthy (Double.request ["x"] "pem" (-1)) =
    ([Call_getCrlFormat "pem"; Call_ParseDuration "1h"; Call_decodePemCrls],
     errorResponse "failed decoding crl 0: invalid crl; should be one PEM block only").
Proof.
  refine (proj1 (@decoding_and_issuer_gates Double.healthy
                   (Double.request ["x"] "pem" (-1)) "pem" 3600000000000 _) _ _).
  - split; vm_compute; first [reflexivity | discriminate].
  - vm_compute. reflexivity.
Defined.

(** X9: the test decoder keeps to the contract, and the request that
    makes the handler panic holds an empty string. *)
Lemma only_the_empty_text_witness :
  "" ∈ crls (Double.request [Double.pemCrl 7 [(100, 3)]; ""] "pem" (-1)).
Proof.
  refine (proj2 (proj2 (@only_the_empty_text_panics Double.healthy
                          pemDecode_hands_input_back))
            (Double.request [Double.pemCrl 7 [(100, 3)]; ""] "pem" (-1))
            "invalid memory address or nil pointer dereference" _).
  vm_compute. reflexivity.
Defined.

(** X11: two lists in both orders. *)
Lemma winners_witness :
  map (fun c => (serialOf Double.decimal c, instantOf c))
      (getAllRevokedCerts Double.decimal insertionOrder
         [Double.crlOf [Double.revoked 5 10; Double.revoked 7 3];
          Double.crlOf [Double.revoked 5 8; Double.revoked 9 1]]).1.1 ≡ₚ
  map (fun c => (serialOf Double.decimal c, instantOf c))
      (getAllRevokedCerts Double.decimal reversedOrder
         [Double.crlOf [Double.revoked 5 8; Double.revoked 9 1];
          Double.crlOf [Double.revoked 5 10; Double.revoked 7 3]]).1.1.
Proof.
  apply winners_independent_of_list_order. apply perm_swap.
Defined.

(** X12: three serials, each revoked once. *)
Lemma distinct_serials_witness :
  (getAllRevokedCerts Double.decimal reversedOrder
     [Double.crlOf [Double.revoked 5 10; Double.revoked 7 3];
      Double.crlOf [Double.revoked 9 1]]).1.1 ≡ₚ
    map clearExtensions
      (entriesOf [Double.crlOf [Double.revoked 5 10; Double.revoked 7 3];
                  Double.crlOf [Double.revoked 9 1]]) /\
  (getAllRevokedCerts Double.decimal reversedOrder
     [Double.crlOf [Double.revoked 5 10; Double.revoked 7 3];
      Double.crlOf [Double.revoked 9 1]]).1.2 = [].
Proof.
  apply distinct_serials_pass_through.
  apply (bool_decide_unpack _). vm_compute. exact I.
Defined.

(** X17: a token in mixed case. *)
Lemma getCrlFormat_normalises_witness :
  ("pem" = "pem" /\ "PeM" ∈ casings "pem" \/ "pem" = "der" /\ "PeM" ∈ casings "der") /\
  getCrlFormat "pem" = Ok "pem".
Proof. apply (getCrlFormat_normalises "PeM" "pem"). reflexivity. Defined.

(** X18, X19, X22, X23: the cluster the test configuration connects with. *)
Lemma test_cluster_connected :
  Cassandra.Net_CreateSession
    {| Cassandra.ClusterHosts := ["10.0.0.1"; "10.0.0.2"];
       Cassandra.Authenticator := Some ("vault", "secret");
       Cassandra.ProtoVersion := 4;
       Cassandra.Timeout := 5000000000;
       Cassandra.SslOpts :=
         Some (Some {| Cassandra.InsecureSkipVerify := true; Cassandra.MinVersion := 771;
                       Cassandra.tlsMaterial := "cert" |}) |}
  ∈ (@Cassandra.createSession Cassandra.testDriver Cassandra.testConfig).1.
Proof. apply list_elem_of_In. vm_compute. left. reflexivity. Defined.

Lemma protocol_version_witness : 4 <> 0.
Proof.
  exact (proj1 (proj2 (proj2 (@CassandraFacts.protocol_version_never_zero
           Cassandra.testDriver Cassandra.testConfig _ test_cluster_connected)))).
Defined.

Lemma tls_options_witness :
  exists tlsConfig,
    Some (Some {| Cassandra.InsecureSkipVerify := true; Cassandra.MinVersion := 771;
                  Cassandra.tlsMaterial := "cert" |}) = Some (Some tlsConfig) /\
    Cassandra.InsecureSkipVerify tlsConfig = true.
Proof.
  destruct (proj2 (proj2 (@CassandraFacts.tls_options Cassandra.testDriver
              Cassandra.testConfig _ test_cluster_connected)) eq_refl)
    as (tlsConfig & Hopts & Hskip & _).
  - left. discriminate.
  - by exists tlsConfig.
Defined.

Lemma connect_timeout_witness :
  5000000000 = 5 * 1000000000 <-> -9223372036 <= 5 <= 9223372036.
Proof.
  refine (proj1 (@CassandraFacts.connect_timeout_in_seconds Cassandra.testDriver
                   Cassandra.testConfig _ test_cluster_connected _)).
  vm_compute. split; [discriminate | reflexivity].
Defined.

Lemma hosts_witness : String.concat "," ["10.0.0.1"; "10.0.0.2"] = "10.0.0.1,10.0.0.2".
Proof.
  exact (proj1 (@CassandraFacts.hosts_are_the_comma_separated_pieces
                  Cassandra.testDriver Cassandra.testConfig _ test_cluster_connected)).
Defined.

(** X24: a query without placeholders. *)
Lemma template_unchanged_witness :
  Cassandra.substQuery Cassandra.backwards "LIST USERS"
    {[ "username" := "bob"; "password" := "pw" ]} = "LIST USERS".
Proof.
  apply CassandraFacts.template_without_placeholder_unchanged. vm_compute. exact I.
Defined.

(** X25: the user name of a CREATE USER statement. *)
Lemma single_placeholder_witness :
  Cassandra.substQuery Cassandra.asListed
    ("CREATE USER '" +:+ Cassandra.placeholder "username" +:+ "';")
    {[ "username" := "bob{{password}}" ]} =
  "CREATE USER '" +:+ "bob{{password}}" +:+ "';".
Proof.
  apply CassandraFacts.single_placeholder_replaced.
  - vm_compute. repeat split; discriminate.
  - vm_compute. exact I.
Defined.
